(** * Halal-Seoul: the rule-based material classifier

    A shallow embedding of [scripts/halal_classifier.py] and the proofs of
    its specification.

    Python strings are sequences of Unicode code points, so [str] is a list
    of code points; byte strings would give the wrong answer to
    [len(normalized_keyword) == 1] for every non-ASCII keyword.  Values whose
    Python type is not fixed (the parsed configuration, the cells of the data
    frame) are inductive types with one constructor per Python type, and code
    that can raise returns in the type [py], a value or an exception.

    Part I is the program, Part II the notions its specification is stated
    with, Part III the proofs, Part IV runs on concrete inputs. *)

From Stdlib Require Import Ascii String.
From Stdlib Require Import List NArith ZArith Bool Arith Lia.
From Equations Require Import Equations.
Import ListNotations.

Set Implicit Arguments.
Unset Strict Implicit.

(** * Part I: the program *)

(** ** Strings *)

(** A character is a Unicode code point. *)
Definition char := N.

Definition str := list char.

Definition char_eqb (a b : char) : bool := N.eqb a b.

Fixpoint str_eqb (a b : str) : bool :=
  match a, b with
  | [], [] => true
  | x :: a', y :: b' => char_eqb x y && str_eqb a' b'
  | _, _ => false
  end.

(** ASCII literals of the source, as code points. *)
Definition lit (s : string) : str :=
  map N_of_ascii (list_ascii_of_string s).

Local Open Scope N_scope.

(** The characters the scanner compares with. *)
Definition QUOTE : char := 0x22.      (* double quote *)

Definition BACKSLASH : char := 0x5C.  (* backslash *)

Definition SLASH : char := 0x2F.      (* slash *)

Definition STAR : char := 0x2A.       (* asterisk *)

Definition LF : char := 0x0A.         (* line feed *)

Definition CR : char := 0x0D.         (* carriage return *)

(** ** Unicode tables

    [str.strip()], [str.isspace()] and the regular expression class [\s] of
    a [str] pattern all test the same set, CPython's
    [_PyUnicode_IsWhitespace]. *)

Definition isspace (c : char) : bool :=
  ((0x09 <=? c) && (c <=? 0x0D)) ||
  ((0x1C <=? c) && (c <=? 0x20)) ||
  (c =? 0x85) || (c =? 0xA0) || (c =? 0x1680) ||
  ((0x2000 <=? c) && (c <=? 0x200A)) ||
  (c =? 0x2028) || (c =? 0x2029) || (c =? 0x202F) || (c =? 0x205F) ||
  (c =? 0x3000).

Definition nonspace (c : char) : bool := negb (isspace c).

(** The case tables of the Unicode character database are not part of the
    repository: they are an interface.  [tolower_full] is the full lowercase
    mapping of one code point (one to three code points), [is_cased] and
    [is_case_ignorable] are the two properties the final-sigma rule reads. *)
Class CaseTables : Type := {
  tolower_full : char -> str;
  is_cased : char -> bool;
  is_case_ignorable : char -> bool
}.

Definition CAPITAL_SIGMA : char := 0x3A3.

Definition FINAL_SIGMA : char := 0x3C2.

Definition SMALL_SIGMA : char := 0x3C3.

(** ** Python values and exceptions *)

(** A float is carried as the text of its literal; the program never
    computes with one.  Not-a-number is the one float it tells apart. *)
Inductive pyfloat : Type :=
| FNaN
| FLit (text : str).

(** What [json.loads] returns. *)
#[warnings="-register-all"]
Inductive pyval : Type :=
| PyNone
| PyBool (b : bool)
| PyInt (z : Z)
| PyFloat (f : pyfloat)
| PyStr (s : str)
| PyList (l : list pyval)
| PyDict (d : list (str * pyval)).

(** A scalar cell of the data frame; [CNA] is [pd.NA]. *)
Inductive cell : Type :=
| CNone
| CNA
| CBool (b : bool)
| CInt (z : Z)
| CFloat (f : pyfloat)
| CStr (s : str).

Inductive exn : Type :=
| IndexError
| KeyError (key : pyval)
| TypeError
| AttributeError
| ValueError
| JSONDecodeError.

(** A computation that returns a value or raises. *)
Inductive py (A : Type) : Type :=
| Ok (a : A)
| Raise (e : exn).
Arguments Ok {A} a.
Arguments Raise {A} e.

Definition bind {A B} (m : py A) (k : A -> py B) : py B :=
  match m with
  | Ok a => k a
  | Raise e => Raise e
  end.

Notation "x <- m ;; k" := (bind m (fun x => k))
  (at level 61, m at next level, right associativity).

(** [isinstance(x, str)], with the string when it holds. *)
Class PyObject (A : Type) : Type := as_str : A -> option str.

#[export] Instance PyObject_str : PyObject str := fun s => Some s.

#[export] Instance PyObject_pyval : PyObject pyval :=
  fun v => match v with PyStr s => Some s | _ => None end.

#[export] Instance PyObject_cell : PyObject cell :=
  fun v => match v with CStr s => Some s | _ => None end.

(** ** String methods *)

(** [needle] is a prefix of [s]. *)
Fixpoint starts_with (needle s : str) : bool :=
  match needle, s with
  | [], _ => true
  | a :: needle', b :: s' => char_eqb a b && starts_with needle' s'
  | _ :: _, [] => false
  end.

(** [needle in hay] *)
Fixpoint str_in (needle hay : str) : bool :=
  starts_with needle hay ||
  match hay with
  | [] => false
  | _ :: hay' => str_in needle hay'
  end.

(** Drop the leading whitespace. *)
Fixpoint lstrip (s : str) : str :=
  match s with
  | [] => []
  | c :: r => if isspace c then lstrip r else s
  end.

Definition rstrip (s : str) : str := rev (lstrip (rev s)).

(** [s.strip()] *)
Definition py_strip (s : str) : str := rstrip (lstrip s).

(** Needed for the termination of [re_sub_ws]. *)
Lemma lstrip_length (s : str) : (length (lstrip s) <= length s)%nat.
Proof.
  induction s as [|c r IH]; simpl; [lia|].
  destruct (isspace c); simpl; lia.
Qed.

(** [re.sub] of the pattern [\s+] by the empty string: at each position the
    longest run of whitespace, if there is one, is replaced by the empty
    string; any other character is copied. *)
Equations? re_sub_ws (s : str) : str by wf (length s) lt :=
  re_sub_ws [] := [];
  re_sub_ws (c :: r) with isspace c => {
    | true := re_sub_ws (lstrip r);
    | false := c :: re_sub_ws r }.
Proof.
  pose proof (lstrip_length r). simpl. lia.
Qed.

Section Lower.
Context {UCD : CaseTables}.

(** Skip the case-ignorable characters. *)
Fixpoint skip_ignorable (s : str) : str :=
  match s with
  | [] => []
  | c :: r => if is_case_ignorable c then skip_ignorable r else s
  end.

(** CPython's [handle_capital_sigma]: [before] is the text to the left of
    the sigma, nearest character first, [after] the text to its right. *)
Definition handle_capital_sigma (before after : str) : char :=
  let final_sigma :=
    match skip_ignorable before with
    | [] => false
    | c :: _ => is_cased c
    end in
  let final_sigma :=
    if final_sigma then
      match skip_ignorable after with
      | [] => true
      | c :: _ => negb (is_cased c)
      end
    else false in
  if final_sigma then FINAL_SIGMA else SMALL_SIGMA.

Local Open Scope N_scope.

(** CPython's [lower_ucs4]. *)
Definition lower_ucs4 (before : str) (c : char) (after : str) : str :=
  if c =? CAPITAL_SIGMA then [handle_capital_sigma before after]
  else tolower_full c.

(** The loop of [s.lower()] over the characters of [s]; [before] holds the
    characters already read, the last one first. *)
Fixpoint lower_from (before s : str) : str :=
  match s with
  | [] => []
  | c :: r => lower_ucs4 before c r ++ lower_from (c :: before) r
  end.

(** [s.lower()] *)
Definition py_lower (s : str) : str := lower_from [] s.

(** ** normalize *)

Definition normalize {A} `{PyObject A} (text : A) : str :=
  match as_str text with
  | None => []
  | Some text =>
      let lowered := py_lower (py_strip text) in
      let lowered := re_sub_ws lowered in
      lowered
  end.

End Lower.

(** ** strip_json_comments *)

(** [raw_text[i]] *)
Definition getitem (raw_text : str) (i : nat) : py char :=
  match nth_error raw_text i with
  | Some c => Ok c
  | None => Raise IndexError
  end.

(** The local variables of the function that the loop updates. *)
Record scanner : Type := {
  st_result : list char;
  st_i : nat;
  st_in_string : bool;
  st_escaped : bool
}.

Local Open Scope nat_scope.

(** [ch not in (LF, CR)] is [negb (is_newline ch)]. *)
Definition is_newline (c : char) : bool := (c =? LF)%N || (c =? CR)%N.

(** The comparison of [nxt], one character or the empty string, with a
    one-character literal. *)
Definition nxt_is (nxt : option char) (c : char) : bool :=
  match nxt with
  | Some d => (d =? c)%N
  | None => false
  end.

(** The inner loop of a line comment: advance [i] to the next line break or
    to the end of the text. *)
Equations? skip_line (raw_text : str) (n i : nat) : py nat by wf (n - i) lt :=
  skip_line raw_text n i with lt_dec i n => {
    | right _ := Ok i;
    | left _ with getitem raw_text i => {
        | Raise e := Raise e;
        | Ok c with is_newline c => {
            | true := Ok i;
            | false := skip_line raw_text n (i + 1) } } }.
Proof. lia. Qed.

(** The inner loop of a block comment: advance [i] to the [*] of the next
    [*/], or until fewer than two characters are left. *)
Equations? skip_block (raw_text : str) (n i : nat) : py nat by wf (n - i) lt :=
  skip_block raw_text n i with lt_dec (i + 1) n => {
    | right _ := Ok i;
    | left _ with getitem raw_text i => {
        | Raise e := Raise e;
        | Ok a with (a =? STAR)%N => {
            | false := skip_block raw_text n (i + 1);
            | true with getitem raw_text (i + 1) => {
                | Raise e := Raise e;
                | Ok b with (b =? SLASH)%N => {
                    | true := Ok i;
                    | false := skip_block raw_text n (i + 1) } } } } }.
Proof. all: lia. Qed.

(** One iteration of the outer loop, entered with [i < n]. *)
Definition loop_body (raw_text : str) (n : nat) (s : scanner) : py scanner :=
  let i := st_i s in
  ch <- getitem raw_text i ;;
  nxt <- (if i + 1 <? n
          then c <- getitem raw_text (i + 1) ;; Ok (Some c)
          else Ok None) ;;
  if st_in_string s then
    let result := st_result s ++ [ch] in
    if st_escaped s then
      Ok {| st_result := result; st_i := i + 1;
            st_in_string := true; st_escaped := false |}
    else if (ch =? BACKSLASH)%N then
      Ok {| st_result := result; st_i := i + 1;
            st_in_string := true; st_escaped := true |}
    else if (ch =? QUOTE)%N then
      Ok {| st_result := result; st_i := i + 1;
            st_in_string := false; st_escaped := false |}
    else
      Ok {| st_result := result; st_i := i + 1;
            st_in_string := true; st_escaped := false |}
  else if (ch =? QUOTE)%N then
    Ok {| st_result := st_result s ++ [ch]; st_i := i + 1;
          st_in_string := true; st_escaped := st_escaped s |}
  else if (ch =? SLASH)%N && nxt_is nxt SLASH then
    i <- skip_line raw_text n (i + 2) ;;
    Ok {| st_result := st_result s; st_i := i;
          st_in_string := false; st_escaped := st_escaped s |}
  else if (ch =? SLASH)%N && nxt_is nxt STAR then
    i <- skip_block raw_text n (i + 2) ;;
    let i := i + (if i + 1 <? n then 2 else 0) in
    Ok {| st_result := st_result s; st_i := i;
          st_in_string := false; st_escaped := st_escaped s |}
  else
    Ok {| st_result := st_result s ++ [ch]; st_i := i + 1;
          st_in_string := false; st_escaped := st_escaped s |}.

(** The inner loops move the index forward or leave it. *)
Lemma skip_line_ge (raw_text : str) (n i j : nat) :
  skip_line raw_text n i = Ok j -> i <= j.
Proof.
  funelim (skip_line raw_text n i); try discriminate.
  all: intros E; try (injection E as <-; lia).
  all: match goal with IH : forall j, _ -> _ <= j |- _ => specialize (IH _ E) end; lia.
Qed.

Lemma skip_block_ge (raw_text : str) (n i j : nat) :
  skip_block raw_text n i = Ok j -> i <= j.
Proof.
  funelim (skip_block raw_text n i); try discriminate.
  all: intros E; try (injection E as <-; lia).
  all: match goal with IH : forall j, _ -> _ <= j |- _ => specialize (IH _ E) end; lia.
Qed.

(** Every iteration moves the index forward, so the loop ends. *)
Lemma loop_body_progress (raw_text : str) (n : nat) (s s' : scanner) :
  loop_body raw_text n s = Ok s' -> st_i s < st_i s'.
Proof.
  unfold loop_body.
  destruct (getitem raw_text (st_i s)) as [ch|]; simpl; [|discriminate].
  destruct (st_i s + 1 <? n); simpl.
  1: destruct (getitem raw_text (st_i s + 1)) as [c|]; simpl; [|discriminate].
  all: repeat match goal with
       | |- context [if ?b then _ else _] => destruct b
       | |- context [bind ?m _] => let E := fresh "E" in destruct m eqn:E; simpl
       end; try discriminate.
  all: intros E'; injection E' as <-; simpl; try lia.
  all: try (apply skip_line_ge in E; lia).
  all: try (apply skip_block_ge in E; lia).
Qed.

(** A value with the proof that it is the value of [a]. *)
Definition inspect {A} (a : A) : {b : A | a = b} := exist _ a eq_refl.

(** The outer loop, [while i < n]. *)
Equations? while_loop (raw_text : str) (n : nat) (s : scanner) : py scanner
  by wf (n - st_i s) lt :=
  while_loop raw_text n s with lt_dec (st_i s) n => {
    | right _ := Ok s;
    | left _ with inspect (loop_body raw_text n s) => {
        | exist _ (Raise e) _ := Raise e;
        | exist _ (Ok s') _ := while_loop raw_text n s' } }.
Proof. apply loop_body_progress in e. lia. Qed.

(** The loop from the start of the text, then the join of [result]. *)
Definition strip_json_comments (raw_text : str) : py str :=
  s <- while_loop raw_text (length raw_text)
         {| st_result := []; st_i := 0;
            st_in_string := false; st_escaped := false |} ;;
  Ok (st_result s).

(** ** json.loads and load_rules

    The decoder of the standard library, for the grammar of RFC 8259 and the
    three constants [NaN], [Infinity] and [-Infinity] that Python adds to it.
    An integer literal becomes an [int], a literal with a fraction or an
    exponent a [float]. *)

Local Open Scope N_scope.

Definition is_json_ws (c : char) : bool :=
  (c =? 0x20) || (c =? 0x09) || (c =? 0x0A) || (c =? 0x0D).

Fixpoint skip_ws (s : str) : str :=
  match s with
  | [] => []
  | c :: r => if is_json_ws c then skip_ws r else s
  end.

Definition is_digit (c : char) : bool := (0x30 <=? c) && (c <=? 0x39).

Definition hex_value (c : char) : option N :=
  if is_digit c then Some (c - 0x30)
  else if (0x41 <=? c) && (c <=? 0x46) then Some (c - 0x41 + 10)
  else if (0x61 <=? c) && (c <=? 0x66) then Some (c - 0x61 + 10)
  else None.

(** The four hexadecimal digits of a [\u] escape. *)
Definition hex4 (s : str) : option (N * str) :=
  match s with
  | a :: b :: c :: d :: r =>
      match hex_value a, hex_value b, hex_value c, hex_value d with
      | Some a, Some b, Some c, Some d =>
          Some (((a * 16 + b) * 16 + c) * 16 + d, r)
      | _, _, _, _ => None
      end
  | _ => None
  end.

(** The character a one-letter escape stands for. *)
Definition unescape (c : char) : option char :=
  if c =? QUOTE then Some QUOTE
  else if c =? BACKSLASH then Some BACKSLASH
  else if c =? SLASH then Some SLASH
  else if c =? 0x62 then Some 0x08
  else if c =? 0x66 then Some 0x0C
  else if c =? 0x6E then Some 0x0A
  else if c =? 0x72 then Some 0x0D
  else if c =? 0x74 then Some 0x09
  else None.

(** [scanstring]: the text of a string literal, read from just after its
    opening quote, and what follows its closing quote. *)
Fixpoint scanstring (fuel : nat) (s acc : str) : option (str * str) :=
  match fuel with
  | O => None
  | S fuel =>
      match s with
      | [] => None
      | c :: r =>
          if c =? QUOTE then Some (rev acc, r)
          else if c =? BACKSLASH then
            match r with
            | [] => None
            | e :: r' =>
                if e =? 0x75 then
                  match hex4 r' with
                  | None => None
                  | Some (u, r'') =>
                      if (0xD800 <=? u) && (u <=? 0xDBFF) then
                        match r'' with
                        | b :: v :: r3 =>
                            if (b =? BACKSLASH) && (v =? 0x75) then
                              match hex4 r3 with
                              | None => None
                              | Some (u2, r4) =>
                                  if (0xDC00 <=? u2) && (u2 <=? 0xDFFF) then
                                    scanstring fuel r4
                                      (0x10000 + ((u - 0xD800) * 0x400 + (u2 - 0xDC00)) :: acc)
                                  else scanstring fuel r'' (u :: acc)
                              end
                            else scanstring fuel r'' (u :: acc)
                        | _ => scanstring fuel r'' (u :: acc)
                        end
                      else scanstring fuel r'' (u :: acc)
                  end
                else
                  match unescape e with
                  | Some x => scanstring fuel r' (x :: acc)
                  | None => None
                  end
            end
          else if c <? 0x20 then None
          else scanstring fuel r (c :: acc)
      end
  end.

(** The digits at the start of [s], and the rest. *)
Fixpoint span_digits (s : str) : str * str :=
  match s with
  | [] => ([], [])
  | c :: r =>
      if is_digit c then let (ds, rest) := span_digits r in (c :: ds, rest)
      else ([], s)
  end.

Definition digits_value (ds : str) : Z :=
  fold_left (fun acc c => (acc * 10 + Z.of_N (c - 0x30))%Z) ds 0%Z.

(** The integer part of a number: [0], or digits that do not start with
    [0]. *)
Definition int_part (s : str) : option (str * str) :=
  match s with
  | c :: r =>
      if c =? 0x30 then Some ([c], r)
      else if is_digit c then Some (span_digits s)
      else None
  | [] => None
  end.

(** The optional fraction: a point and at least one digit. *)
Definition frac_part (s : str) : str * str :=
  match s with
  | c :: r =>
      if c =? 0x2E then
        match span_digits r with
        | ([], _) => ([], s)
        | (ds, rest) => (c :: ds, rest)
        end
      else ([], s)
  | [] => ([], s)
  end.

(** The optional exponent: [e] or [E], an optional sign, at least one
    digit. *)
Definition exp_part (s : str) : str * str :=
  match s with
  | c :: r =>
      if (c =? 0x65) || (c =? 0x45) then
        let (sign, r') :=
          match r with
          | g :: t => if (g =? 0x2B) || (g =? 0x2D) then ([g], t) else ([], r)
          | [] => ([], r)
          end in
        match span_digits r' with
        | ([], _) => ([], s)
        | (ds, rest) => ((c :: sign) ++ ds, rest)
        end
      else ([], s)
  | [] => ([], s)
  end.

Definition scan_number (s : str) : option (pyval * str) :=
  let (sign, s1) :=
    match s with
    | c :: r => if c =? 0x2D then ([c], r) else ([], s)
    | [] => ([], s)
    end in
  match int_part s1 with
  | None => None
  | Some (ds, s2) =>
      let (frac, s3) := frac_part s2 in
      let (exp, s4) := exp_part s3 in
      match frac, exp with
      | [], [] =>
          let z := digits_value ds in
          Some (PyInt (match sign with [] => z | _ => - z end)%Z, s4)
      | _, _ => Some (PyFloat (FLit (sign ++ ds ++ frac ++ exp)), s4)
      end
  end.

(** [d[key] = value] *)
Fixpoint dict_set (key : str) (value : pyval) (d : list (str * pyval))
  : list (str * pyval) :=
  match d with
  | [] => [(key, value)]
  | (k, v) :: r =>
      if str_eqb k key then (k, value) :: r else (k, v) :: dict_set key value r
  end.

(** [dict(pairs)] *)
Definition dict_of_pairs (pairs : list (str * pyval)) : list (str * pyval) :=
  fold_left (fun d kv => dict_set (fst kv) (snd kv) d) pairs [].

Definition LBRACE : char := 0x7B.

Definition RBRACE : char := 0x7D.

Definition LBRACKET : char := 0x5B.

Definition RBRACKET : char := 0x5D.

Definition COMMA : char := 0x2C.

Definition COLON : char := 0x3A.

(** [scan_once] reads one value; [object_loop] reads the members of an
    object from just after the opening quote of a key, [array_loop] the
    elements of an array from the start of an element. *)
Fixpoint scan_once (fuel : nat) (s : str) : option (pyval * str) :=
  match fuel with
  | O => None
  | S fuel =>
      match s with
      | [] => None
      | c :: r =>
          if c =? QUOTE then
            match scanstring (length r) r [] with
            | Some (text, rest) => Some (PyStr text, rest)
            | None => None
            end
          else if c =? LBRACE then
            match skip_ws r with
            | d :: r' =>
                if d =? RBRACE then Some (PyDict [], r')
                else if d =? QUOTE then object_loop fuel r' []
                else None
            | [] => None
            end
          else if c =? LBRACKET then
            match skip_ws r with
            | d :: r' =>
                if d =? RBRACKET then Some (PyList [], r')
                else array_loop fuel (d :: r') []
            | [] => None
            end
          else if starts_with (lit "null") s then Some (PyNone, skipn 4 s)
          else if starts_with (lit "true") s then Some (PyBool true, skipn 4 s)
          else if starts_with (lit "false") s then Some (PyBool false, skipn 5 s)
          else
            match scan_number s with
            | Some found => Some found
            | None =>
                if starts_with (lit "NaN") s then
                  Some (PyFloat FNaN, skipn 3 s)
                else if starts_with (lit "Infinity") s then
                  Some (PyFloat (FLit (lit "Infinity")), skipn 8 s)
                else if starts_with (lit "-Infinity") s then
                  Some (PyFloat (FLit (lit "-Infinity")), skipn 9 s)
                else None
            end
      end
  end

with object_loop (fuel : nat) (s : str) (pairs : list (str * pyval))
  : option (pyval * str) :=
  match fuel with
  | O => None
  | S fuel =>
      match scanstring (length s) s [] with
      | None => None
      | Some (key, s1) =>
          match skip_ws s1 with
          | c :: s2 =>
              if c =? COLON then
                match scan_once fuel (skip_ws s2) with
                | None => None
                | Some (value, s3) =>
                    match skip_ws s3 with
                    | d :: s4 =>
                        if d =? RBRACE then
                          Some (PyDict (dict_of_pairs (rev ((key, value) :: pairs))), s4)
                        else if d =? COMMA then
                          match skip_ws s4 with
                          | q :: s5 =>
                              if q =? QUOTE
                              then object_loop fuel s5 ((key, value) :: pairs)
                              else None
                          | [] => None
                          end
                        else None
                    | [] => None
                    end
                end
              else None
          | [] => None
          end
      end
  end

with array_loop (fuel : nat) (s : str) (values : list pyval)
  : option (pyval * str) :=
  match fuel with
  | O => None
  | S fuel =>
      match scan_once fuel s with
      | None => None
      | Some (value, s1) =>
          match skip_ws s1 with
          | d :: s2 =>
              if d =? RBRACKET then Some (PyList (rev (value :: values)), s2)
              else if d =? COMMA then array_loop fuel (skip_ws s2) (value :: values)
              else None
          | [] => None
          end
      end
  end.

(** [json.loads(s)]: one value, with whitespace around it and nothing else;
    a byte order mark at the start is refused. *)
Definition json_loads (s : str) : py pyval :=
  if starts_with [0xFEFF] s then Raise JSONDecodeError
  else
    match scan_once (S (length s)) (skip_ws s) with
    | Some (obj, rest) =>
        match skip_ws rest with
        | [] => Ok obj
        | _ => Raise JSONDecodeError
        end
    | None => Raise JSONDecodeError
    end.

Section Loader.

(** [json.loads]; [json_loads] above is the decoder the examples run. *)
Variable loads : str -> py pyval.

(** [raw_text] is the text read from the file at [path]. *)
Definition load_rules (raw_text : str) : py pyval :=
  clean_text <- strip_json_comments raw_text ;;
  loads clean_text.

End Loader.

(** ** Operations on Python values *)

Local Open Scope nat_scope.

(** A [dict] keeps its items in insertion order; a key is looked up by
    equality of strings. *)
Fixpoint dict_lookup (key : str) (d : list (str * pyval)) : option pyval :=
  match d with
  | [] => None
  | (k, v) :: r => if str_eqb k key then Some v else dict_lookup key r
  end.

(** [seq[z]] for a list or a string: a negative index counts from the end. *)
Definition seq_index {A} (l : list A) (z : Z) : py A :=
  let z := if (z <? 0)%Z then (z + Z.of_nat (length l))%Z else z in
  if (z <? 0)%Z then Raise IndexError
  else match nth_error l (Z.to_nat z) with
       | Some a => Ok a
       | None => Raise IndexError
       end.

(** [obj[key]] *)
Definition py_getitem (obj key : pyval) : py pyval :=
  match obj with
  | PyDict d =>
      match key with
      | PyStr k =>
          match dict_lookup k d with
          | Some v => Ok v
          | None => Raise (KeyError key)
          end
      | PyList _ | PyDict _ => Raise TypeError   (* unhashable *)
      | _ => Raise (KeyError key)
      end
  | PyList l =>
      match key with
      | PyInt z => seq_index l z
      | PyBool b => seq_index l (if b then 1 else 0)%Z
      | _ => Raise TypeError
      end
  | PyStr s =>
      match key with
      | PyInt z => c <- seq_index s z ;; Ok (PyStr [c])
      | PyBool b => c <- seq_index s (if b then 1 else 0)%Z ;; Ok (PyStr [c])
      | _ => Raise TypeError
      end
  | _ => Raise TypeError
  end.

(** [obj.get(key, default)]: only a [dict] has the method. *)
Definition py_get (obj : pyval) (key : str) (default : pyval) : py pyval :=
  match obj with
  | PyDict d =>
      match dict_lookup key d with
      | Some v => Ok v
      | None => Ok default
      end
  | _ => Raise AttributeError
  end.

(** [obj.items()] *)
Definition py_items (obj : pyval) : py (list (str * pyval)) :=
  match obj with
  | PyDict d => Ok d
  | _ => Raise AttributeError
  end.

(** The elements [for x in obj] runs through. *)
Definition py_iter (obj : pyval) : py (list pyval) :=
  match obj with
  | PyList l => Ok l
  | PyStr s => Ok (map (fun c => PyStr [c]) s)
  | PyDict d => Ok (map (fun kv => PyStr (fst kv)) d)
  | _ => Raise TypeError
  end.

(** What an f-string puts in place of a value.  The program formats
    keywords that [keyword_match] accepted, and those are strings. *)
Definition py_format (v : pyval) : str :=
  match v with
  | PyStr s => s
  | _ => []
  end.

(** ** The literals of the classifier *)

(* 정확 일치 오버라이드 *)
Definition OVERRIDE_REASON : str :=
  [51221; 54869; 32; 51068; 52824; 32; 50724; 48260; 46972; 51060; 46300]%N.

(* 하람 키워드 포함: *)
Definition HARAM_REASON : str :=
  [54616; 46988; 32; 53412; 50892; 46300; 32; 54252; 54632; 58; 32]%N.

(* 추가 검토 필요 키워드 포함: *)
Definition REVIEW_REASON : str :=
  [52628; 44032; 32; 44160; 53664; 32; 54596; 50836; 32; 53412; 50892; 46300;
   32; 54252; 54632; 58; 32]%N.

(* 할랄 키워드 포함: *)
Definition HALAL_REASON : str :=
  [54624; 46980; 32; 53412; 50892; 46300; 32; 54252; 54632; 58; 32]%N.

Section Classifier.
Context {UCD : CaseTables}.

(** ** keyword_match *)

Local Open Scope nat_scope.

Definition keyword_match (normalized_text : str) (keyword : pyval) : bool :=
  let normalized_keyword := normalize keyword in
  match normalized_keyword with
  | [] => false
  | _ =>
      if length normalized_keyword =? 1
      then str_eqb normalized_text normalized_keyword
      else str_in normalized_keyword normalized_text
  end.

(** ** classify_material *)

(** The result of a loop that can return from the function: [Some] is the
    value returned, [None] means the loop ran to its end. *)
Definition returned := option (pyval * pyval).

(** The loop over the exact overrides. *)
Fixpoint overrides_loop (status_labels : pyval) (normalized : str)
  (items : list (str * pyval)) : py returned :=
  match items with
  | [] => Ok None
  | (key, value) :: rest =>
      if str_eqb (normalize key) normalized then
        status_key <- py_getitem value (PyStr (lit "status")) ;;
        reason <- py_get value (lit "reason") (PyStr OVERRIDE_REASON) ;;
        label <- py_getitem status_labels status_key ;;
        Ok (Some (label, reason))
      else overrides_loop status_labels normalized rest
  end.

(** The loop over the keywords of one tier; [status] is the key of the
    tier's label and [reason] the text put before the keyword. *)
Fixpoint keywords_loop (status_labels : pyval) (normalized : str)
  (status reason : str) (keywords : list pyval) : py returned :=
  match keywords with
  | [] => Ok None
  | keyword :: rest =>
      if keyword_match normalized keyword then
        label <- py_getitem status_labels (PyStr status) ;;
        Ok (Some (label, PyStr (reason ++ py_format keyword)))
      else keywords_loop status_labels normalized status reason rest
  end.

(** [for keyword in rules.get(tier, [])] with its body. *)
Definition tier (status_labels rules : pyval) (normalized : str)
  (name status reason : str) : py returned :=
  keywords <- py_get rules name (PyList []) ;;
  keywords <- py_iter keywords ;;
  keywords_loop status_labels normalized status reason keywords.

(** Go on with [k] when the loop [m] did not return. *)
Definition or_else (m : py returned) (k : py (pyval * pyval)) : py (pyval * pyval) :=
  r <- m ;;
  match r with
  | Some result => Ok result
  | None => k
  end.

Definition classify_material (material_name : cell) (ruleset : pyval)
  : py (pyval * pyval) :=
  status_labels <- py_getitem ruleset (PyStr (lit "status_labels")) ;;
  rules <- py_getitem ruleset (PyStr (lit "rules")) ;;
  overrides <- py_get ruleset (lit "overrides") (PyDict []) ;;
  overrides <- py_get overrides (lit "exact") (PyDict []) ;;
  let raw := match as_str material_name with Some s => s | None => [] end in
  let normalized := normalize raw in
  items <- py_items overrides ;;
  or_else (overrides_loop status_labels normalized items)
  (or_else (tier status_labels rules normalized
              (lit "haram_contains") (lit "haram") HARAM_REASON)
  (or_else (tier status_labels rules normalized
              (lit "review_contains") (lit "review") REVIEW_REASON)
  (or_else (tier status_labels rules normalized
              (lit "halal_contains") (lit "halal") HALAL_REASON)
  (Ok (PyNone, PyNone))))).

End Classifier.

(** ** should_update *)

(** [pd.isna] of a scalar *)
Definition pd_isna (v : cell) : bool :=
  match v with
  | CNone | CNA | CFloat FNaN => true
  | _ => false
  end.

(** [existing_status] is a cell of the column [halal_status]. *)
Definition should_update (existing_status : cell) (overwrite : bool) : bool :=
  if overwrite then true
  else if pd_isna existing_status then true
  else
    match as_str existing_status with
    | Some s => if str_eqb (py_strip s) [] then true else false
    | None => false
    end.

(** ** run *)

(** A row of the data frame when the loop starts: the file has been read and
    the two target columns are there, cast to strings. *)
Record row : Type := {
  material_name : cell;
  halal_status : cell;
  reason : cell
}.

(** What a run that returns has done.  An exception leaves [run] before the
    file is written, the last thing it does, and the data frame is local to
    it: a run that raises has no effect. *)
Record report : Type := {
  final_rows : list row;
  updated : nat;
  written : bool
}.

Section Run.
Context {UCD : CaseTables}.

(** [json.loads] *)
Variable loads : str -> py pyval.

(** What pandas stores in a cell of a string column when a value other than
    [pd.NA] is assigned to it; it refuses some values. *)
Variable string_cell : pyval -> py cell.

(** [value if value is not None else pd.NA], assigned to a cell. *)
Definition assign (value : pyval) : py cell :=
  match value with
  | PyNone => Ok CNA
  | _ => string_cell value
  end.

Local Open Scope nat_scope.

(** The loop over [df.iterrows()]. *)
Fixpoint rows_loop (ruleset : pyval) (overwrite : bool) (rows : list row)
  (updated : nat) : py (list row * nat) :=
  match rows with
  | [] => Ok ([], updated)
  | r :: rest =>
      if negb (should_update (halal_status r) overwrite) then
        done <- rows_loop ruleset overwrite rest updated ;;
        Ok (r :: fst done, snd done)
      else
        result <- classify_material (material_name r) ruleset ;;
        status <- assign (fst result) ;;
        reason <- assign (snd result) ;;
        done <- rows_loop ruleset overwrite rest (updated + 1) ;;
        Ok ({| material_name := material_name r;
               halal_status := status;
               reason := reason |} :: fst done, snd done)
  end.

(** [has_material_name] tells whether the data frame read from the input has
    the column [material_name]; [rules_text] is the text of the rules file. *)
Definition run (has_material_name : bool) (rows : list row) (rules_text : str)
  (overwrite dry_run : bool) : py report :=
  ruleset <- load_rules loads rules_text ;;
  if negb has_material_name then Raise ValueError
  else
    done <- rows_loop ruleset overwrite rows 0 ;;
    Ok {| final_rows := fst done; updated := snd done; written := negb dry_run |}.

End Run.

(** A string column takes strings, takes a float that is not a number as
    [pd.NA], and refuses every other value. *)
Definition string_cell_set (value : pyval) : py cell :=
  match value with
  | PyStr s => Ok (CStr s)
  | PyNone | PyFloat FNaN => Ok CNA
  | PyList _ | PyDict _ => Raise ValueError
  | _ => Raise TypeError
  end.

(** * Part II: what the theorems are stated with *)

(** ** Text *)

Definition starts_with_space (s : str) : bool :=
  match s with
  | [] => false
  | c :: _ => isspace c
  end.

Definition ends_with_space (s : str) : bool := starts_with_space (rev s).

Local Open Scope N_scope.

(** The Unicode lowercase mapping maps into characters it leaves alone, and
    never into the capital sigma, which [str.lower] treats apart; both sigmas
    the final-sigma rule can produce are such characters too.  The Unicode
    character database has this property. *)
Definition lowercase_is_stable (UCD : CaseTables) : Prop :=
  (forall c d : char, c <> CAPITAL_SIGMA -> In d (tolower_full c) ->
     tolower_full d = [d] /\ d <> CAPITAL_SIGMA) /\
  tolower_full FINAL_SIGMA = [FINAL_SIGMA] /\
  tolower_full SMALL_SIGMA = [SMALL_SIGMA].

(** [l1] is [l2] with some of its elements deleted. *)
Inductive subsequence {A : Type} : list A -> list A -> Prop :=
| subsequence_nil : subsequence [] []
| subsequence_keep (a : A) (l1 l2 : list A) :
    subsequence l1 l2 -> subsequence (a :: l1) (a :: l2)
| subsequence_drop (a : A) (l1 l2 : list A) :
    subsequence l1 l2 -> subsequence l1 (a :: l2).

(** ** The scanner, one character at a time

    [scan m s] is what the loop appends to [result] from a point where the
    text [s] is left to read and the loop is in mode [m]; [kept m s] tells,
    for every character of [s], whether it is appended.  Both follow the
    code, also where an unclosed block comment stops one character before
    the end of the text. *)

Inductive mode : Type :=
| Normal
| InString (escaped : bool)
| LineComment
| BlockComment.

Local Open Scope nat_scope.

(** The mode after a character read inside a string. *)
Definition string_next (escaped : bool) (c : char) : mode :=
  if escaped then InString false
  else if (c =? BACKSLASH)%N then InString true
  else if (c =? QUOTE)%N then Normal
  else InString false.

Fixpoint kept (m : mode) (s : str) : list bool :=
  match s with
  | [] => []
  | c :: r =>
      match m with
      | InString escaped => true :: kept (string_next escaped c) r
      | Normal =>
          if (c =? QUOTE)%N then true :: kept (InString false) r
          else
            match r with
            | [] => [true]
            | d :: r' =>
                if (c =? SLASH)%N && (d =? SLASH)%N then
                  false :: false :: kept LineComment r'
                else if (c =? SLASH)%N && (d =? STAR)%N then
                  false :: false :: kept BlockComment r'
                else true :: kept Normal r
            end
      | LineComment =>
          if is_newline c then true :: kept Normal r
          else false :: kept LineComment r
      | BlockComment =>
          match r with
          | [] => [true]
          | d :: r' =>
              if (c =? STAR)%N && (d =? SLASH)%N then
                false :: false :: kept Normal r'
              else false :: kept BlockComment r
          end
      end
  end.

(** The characters of [s] that the mask [m] keeps. *)
Fixpoint mask (m : list bool) (s : str) : str :=
  match m, s with
  | b :: m', c :: s' => if b then c :: mask m' s' else mask m' s'
  | _, _ => []
  end.

Definition scan (m : mode) (s : str) : str := mask (kept m s) s.

(** After the inner loop of a block comment and the adjustment of [i] that
    follows it. *)
Definition after_block (n j : nat) : nat := j + (if j + 1 <? n then 2 else 0).

(** The mode the loop is in, read off its two flags. *)
Definition mode_of (s : scanner) : mode :=
  if st_in_string s then InString (st_escaped s) else Normal.

(** Outside a string no escape is pending. *)
Definition flags_ok (s : scanner) : Prop :=
  st_in_string s = false -> st_escaped s = false.

(** ** The lexical structure the specification describes

    The text is read from left to right in one of four modes.  A double
    quote read in normal mode opens a string, which runs to the first double
    quote that is not escaped; [//] read in normal mode opens a line comment,
    which runs up to the next line break; [/*] read in normal mode opens a
    block comment, which runs through the next [*/] or, when there is none, to
    the end of the text. *)

Inductive lexeme : Type :=
| Code          (* outside strings and comments *)
| StringChar    (* a string, with the quotes around it *)
| CommentChar.  (* a comment, with its delimiters *)

Fixpoint lexemes (m : mode) (s : str) : list lexeme :=
  match s with
  | [] => []
  | c :: r =>
      match m with
      | InString escaped => StringChar :: lexemes (string_next escaped c) r
      | Normal =>
          if (c =? QUOTE)%N then StringChar :: lexemes (InString false) r
          else
            match r with
            | [] => [Code]
            | d :: r' =>
                if (c =? SLASH)%N && (d =? SLASH)%N then
                  CommentChar :: CommentChar :: lexemes LineComment r'
                else if (c =? SLASH)%N && (d =? STAR)%N then
                  CommentChar :: CommentChar :: lexemes BlockComment r'
                else Code :: lexemes Normal r
            end
      | LineComment =>
          if is_newline c then Code :: lexemes Normal r
          else CommentChar :: lexemes LineComment r
      | BlockComment =>
          match r with
          | [] => [CommentChar]
          | d :: r' =>
              if (c =? STAR)%N && (d =? SLASH)%N then
                CommentChar :: CommentChar :: lexemes Normal r'
              else CommentChar :: lexemes BlockComment r
          end
      end
  end.

(** The text has no [//] and no [/*] outside its strings.  Only quotes and
    backslashes are looked at to tell where the strings are. *)
Fixpoint no_comment_outside_strings (m : mode) (s : str) : bool :=
  match s with
  | [] => true
  | c :: r =>
      match m with
      | InString escaped => no_comment_outside_strings (string_next escaped c) r
      | _ =>
          if (c =? QUOTE)%N then no_comment_outside_strings (InString false) r
          else
            negb ((c =? SLASH)%N &&
                  (nxt_is (hd_error r) SLASH || nxt_is (hd_error r) STAR)) &&
            no_comment_outside_strings Normal r
      end
  end.

Definition comment_free (s : str) : bool := no_comment_outside_strings Normal s.

(** The two characters [*/] occur next to each other in the text. *)
Fixpoint has_block_end (s : str) : bool :=
  match s with
  | [] => false
  | c :: r => ((c =? STAR)%N && nxt_is (hd_error r) SLASH) || has_block_end r
  end.

(** ** Statuses and rulesets *)

(** The status is missing: [None], [pd.NA] or a float that is not a number. *)
Definition missing (v : cell) : Prop :=
  v = CNone \/ v = CNA \/ v = CFloat FNaN.

(** ** Valid rulesets

    The schema of the configuration: [status_labels] maps the status keys,
    [haram], [review] and [halal] among them, to display strings; each tier
    of [rules], when it is there, is a list of keyword strings; each exact
    override, when there are any, has a [status] that is a key of
    [status_labels] and, when it has a [reason], a string for it. *)

Definition is_str (v : pyval) : bool :=
  match v with
  | PyStr _ => true
  | _ => false
  end.

Definition has_key (key : str) (d : list (str * pyval)) : bool :=
  match dict_lookup key d with
  | Some _ => true
  | None => false
  end.

Definition valid_tier (rules : list (str * pyval)) (name : str) : bool :=
  match dict_lookup name rules with
  | None => true
  | Some (PyList keywords) => forallb is_str keywords
  | Some _ => false
  end.

Definition valid_override (labels : list (str * pyval)) (value : pyval) : bool :=
  match value with
  | PyDict fields =>
      match dict_lookup (lit "status") fields with
      | Some (PyStr status) => has_key status labels
      | _ => false
      end &&
      match dict_lookup (lit "reason") fields with
      | None => true
      | Some reason => is_str reason
      end
  | _ => false
  end.

Definition valid_overrides (labels d : list (str * pyval)) : bool :=
  match dict_lookup (lit "overrides") d with
  | None => true
  | Some (PyDict overrides) =>
      match dict_lookup (lit "exact") overrides with
      | None => true
      | Some (PyDict exact) =>
          forallb (fun kv => valid_override labels (snd kv)) exact
      | Some _ => false
      end
  | Some _ => false
  end.

Definition valid_ruleset (ruleset : pyval) : bool :=
  match ruleset with
  | PyDict d =>
      match dict_lookup (lit "status_labels") d, dict_lookup (lit "rules") d with
      | Some (PyDict labels), Some (PyDict rules) =>
          forallb (fun kv => is_str (snd kv)) labels &&
          has_key (lit "haram") labels &&
          has_key (lit "review") labels &&
          has_key (lit "halal") labels &&
          valid_tier rules (lit "haram_contains") &&
          valid_tier rules (lit "review_contains") &&
          valid_tier rules (lit "halal_contains") &&
          valid_overrides labels d
      | _, _ => false
      end
  | _ => false
  end.

(** The parts of a ruleset, with the defaults of the code for the parts
    that may be left out. *)
Definition labels_of (ruleset : pyval) : list (str * pyval) :=
  match ruleset with
  | PyDict d =>
      match dict_lookup (lit "status_labels") d with
      | Some (PyDict labels) => labels
      | _ => []
      end
  | _ => []
  end.

Definition tier_of (ruleset : pyval) (name : str) : list pyval :=
  match ruleset with
  | PyDict d =>
      match dict_lookup (lit "rules") d with
      | Some (PyDict rules) =>
          match dict_lookup name rules with
          | Some (PyList keywords) => keywords
          | _ => []
          end
      | _ => []
      end
  | _ => []
  end.

Definition exact_of (ruleset : pyval) : list (str * pyval) :=
  match ruleset with
  | PyDict d =>
      match dict_lookup (lit "overrides") d with
      | Some (PyDict overrides) =>
          match dict_lookup (lit "exact") overrides with
          | Some (PyDict exact) => exact
          | _ => []
          end
      | _ => []
      end
  | _ => []
  end.

(** [status_labels[key]] and the two fields of an override, for a valid
    ruleset. *)
Definition label (labels : list (str * pyval)) (key : str) : pyval :=
  match dict_lookup key labels with
  | Some v => v
  | None => PyNone
  end.

Definition override_status (value : pyval) : str :=
  match value with
  | PyDict fields =>
      match dict_lookup (lit "status") fields with
      | Some (PyStr status) => status
      | _ => []
      end
  | _ => []
  end.

Definition override_reason (value : pyval) : pyval :=
  match value with
  | PyDict fields =>
      match dict_lookup (lit "reason") fields with
      | Some reason => reason
      | None => PyStr OVERRIDE_REASON
      end
  | _ => PyStr OVERRIDE_REASON
  end.

(** [first_match P l (Some x)]: [x] is the first element of [l], in the order
    of the list, that satisfies [P]; [first_match P l None]: no element of
    [l] satisfies [P]. *)
Inductive first_match {A : Type} (P : A -> bool) : list A -> option A -> Prop :=
| first_match_none (l : list A) :
    forallb (fun a => negb (P a)) l = true -> first_match P l None
| first_match_some (pre : list A) (x : A) (post : list A) :
    forallb (fun a => negb (P a)) pre = true -> P x = true ->
    first_match P (pre ++ x :: post) (Some x).

(** The name that is classified: the empty text when it is not a string. *)
Definition name_text (material_name : cell) : str :=
  match material_name with
  | CStr s => s
  | _ => []
  end.

Definition override_result (labels : list (str * pyval)) (kv : str * pyval)
  : pyval * pyval :=
  (label labels (override_status (snd kv)), override_reason (snd kv)).

Definition keyword_result (labels : list (str * pyval)) (status reason : str)
  (keyword : pyval) : pyval * pyval :=
  (label labels status, PyStr (reason ++ py_format keyword)).

(** The keywords of a tier of the rules. *)
Definition keywords_of (rules : list (str * pyval)) (name : str) : list pyval :=
  match dict_lookup name rules with
  | Some (PyList keywords) => keywords
  | _ => []
  end.

(** A key the classifier reads with [ruleset[key]] is not in the
    configuration: the first one it would miss. *)
Definition missing_key (d : list (str * pyval)) : option str :=
  match dict_lookup (lit "status_labels") d with
  | None => Some (lit "status_labels")
  | Some _ =>
      match dict_lookup (lit "rules") d with
      | None => Some (lit "rules")
      | Some _ => None
      end
  end.

(** Some row is eligible for an update. *)
Definition some_eligible (overwrite : bool) (rows : list row) : bool :=
  existsb (fun r => should_update (halal_status r) overwrite) rows.

Section Decision.
Context {UCD : CaseTables}.

Local Open Scope N_scope.

Definition lower_fixed (c : char) : Prop :=
  tolower_full c = [c] /\ c <> CAPITAL_SIGMA.

Local Open Scope nat_scope.

(** An override applies to the normalized name when its key, normalized, is
    equal to it. *)
Definition override_applies (normalized : str) (kv : str * pyval) : bool :=
  str_eqb (normalize (fst kv)) normalized.

(** The decision of the specification: the exact overrides come first, then
    the haram, the review and the halal keywords, and inside each of the four
    the first match in the order of definition decides. *)
Inductive decision (labels exact : list (str * pyval))
  (haram review halal : list pyval) (normalized : str) : pyval * pyval -> Prop :=
| decision_override (key : str) (value : pyval) :
    first_match (override_applies normalized) exact (Some (key, value)) ->
    decision labels exact haram review halal normalized
      (label labels (override_status value), override_reason value)
| decision_haram (keyword : str) :
    first_match (override_applies normalized) exact None ->
    first_match (keyword_match normalized) haram (Some (PyStr keyword)) ->
    decision labels exact haram review halal normalized
      (label labels (lit "haram"), PyStr (HARAM_REASON ++ keyword))
| decision_review (keyword : str) :
    first_match (override_applies normalized) exact None ->
    first_match (keyword_match normalized) haram None ->
    first_match (keyword_match normalized) review (Some (PyStr keyword)) ->
    decision labels exact haram review halal normalized
      (label labels (lit "review"), PyStr (REVIEW_REASON ++ keyword))
| decision_halal (keyword : str) :
    first_match (override_applies normalized) exact None ->
    first_match (keyword_match normalized) haram None ->
    first_match (keyword_match normalized) review None ->
    first_match (keyword_match normalized) halal (Some (PyStr keyword)) ->
    decision labels exact haram review halal normalized
      (label labels (lit "halal"), PyStr (HALAL_REASON ++ keyword))
| decision_unmatched :
    first_match (override_applies normalized) exact None ->
    first_match (keyword_match normalized) haram None ->
    first_match (keyword_match normalized) review None ->
    first_match (keyword_match normalized) halal None ->
    decision labels exact haram review halal normalized (PyNone, PyNone).

(** The decision as a function of the parts of the ruleset. *)
Definition decide (labels exact : list (str * pyval))
  (haram review halal : list pyval) (normalized : str) : pyval * pyval :=
  match find (override_applies normalized) exact with
  | Some kv => override_result labels kv
  | None =>
  match find (keyword_match normalized) haram with
  | Some keyword => keyword_result labels (lit "haram") HARAM_REASON keyword
  | None =>
  match find (keyword_match normalized) review with
  | Some keyword => keyword_result labels (lit "review") REVIEW_REASON keyword
  | None =>
  match find (keyword_match normalized) halal with
  | Some keyword => keyword_result labels (lit "halal") HALAL_REASON keyword
  | None => (PyNone, PyNone)
  end end end end.

End Decision.

(** ** More notions for texts *)

(** The mode at the end of a text that has no comments, told from its quotes
    and backslashes. *)
Fixpoint string_mode_after (m : mode) (s : str) : mode :=
  match s with
  | [] => m
  | c :: r =>
      match m with
      | InString escaped => string_mode_after (string_next escaped c) r
      | _ =>
          if (c =? QUOTE)%N then string_mode_after (InString false) r
          else string_mode_after Normal r
      end
  end.

(** The last character of the text is a slash. *)
Definition ends_with_slash (s : str) : bool := (last s 0 =? SLASH)%N.

(** The text has no line feed and no carriage return. *)
Definition no_line_break (s : str) : bool :=
  forallb (fun c => negb (is_newline c)) s.

(** The text is empty or starts with a line feed or a carriage return. *)
Definition at_line_break (s : str) : bool :=
  match s with
  | [] => true
  | c :: _ => is_newline c
  end.

(** The mode in which what the scanner gives back is read again. *)
Definition out_mode (m : mode) : mode :=
  match m with
  | InString escaped => InString escaped
  | _ => Normal
  end.

(** ** More notions for names and keywords *)

(** The text has no capital sigma, the one character whose lowercase depends
    on its neighbours. *)
Definition sigma_free (s : str) : bool :=
  forallb (fun c => negb (c =? CAPITAL_SIGMA)%N) s.

(** The lowercase mapping of a whitespace character is whitespace: whitespace
    has no case.  The Unicode character database has this property. *)
Definition whitespace_is_caseless (UCD : CaseTables) : Prop :=
  forall c : char, isspace c = true -> forallb isspace (tolower_full c) = true.

(** The keyword is not a string, or it is a string of whitespace only. *)
Definition blank_keyword (keyword : pyval) : bool :=
  match keyword with
  | PyStr s => forallb isspace s
  | _ => true
  end.

(** ** More notions for rulesets and batches *)

(** The items of [overrides.exact] the loop over the overrides runs through:
    none when [overrides] or [exact] is left out.  There are none to run
    through when one of the two is there and is no object. *)
Definition exact_items (d : list (str * pyval)) : option (list (str * pyval)) :=
  match dict_lookup (lit "overrides") d with
  | None => Some []
  | Some (PyDict overrides) =>
      match dict_lookup (lit "exact") overrides with
      | None => Some []
      | Some (PyDict exact) => Some exact
      | Some _ => None
      end
  | Some _ => None
  end.

(** The number of rows that are eligible for an update. *)
Definition count_eligible (overwrite : bool) (rows : list row) : nat :=
  length (filter (fun r => should_update (halal_status r) overwrite) rows).

(** The cell that holds a field of a classification: the string, or [pd.NA]
    for an absent field. *)
Definition cell_of (v : pyval) : cell :=
  match v with
  | PyStr s => CStr s
  | _ => CNA
  end.

Section Batch.
Context {UCD : CaseTables}.

(** The row after the batch: an eligible row gets the two fields of the
    classification of its own name, any other row stays as it is. *)
Definition classified_row (ruleset : pyval) (overwrite : bool) (r : row) : row :=
  if should_update (halal_status r) overwrite then
    match classify_material (material_name r) ruleset with
    | Ok (status, reason) =>
        {| material_name := material_name r;
           halal_status := cell_of status;
           reason := cell_of reason |}
    | Raise _ => r
    end
  else r.

End Batch.

(** ** Concrete tables and rules for the examples *)

Local Open Scope N_scope.

(** The case tables restricted to the Basic Latin letters, the capital I
    with a dot above, whose lowercase has two characters, and the Greek
    sigma; every other character is its own lowercase. *)
Definition latin_tolower (c : char) : str :=
  if (0x41 <=? c) && (c <=? 0x5A) then [c + 0x20]
  else if c =? 0x130 then [0x69; 0x307]
  else if c =? CAPITAL_SIGMA then [SMALL_SIGMA]
  else [c].

Definition latin_is_cased (c : char) : bool :=
  ((0x41 <=? c) && (c <=? 0x5A)) || ((0x61 <=? c) && (c <=? 0x7A)) ||
  (c =? 0x130) || (c =? CAPITAL_SIGMA) || (c =? FINAL_SIGMA) || (c =? SMALL_SIGMA).

Definition latin_is_case_ignorable (c : char) : bool :=
  (c =? 0x27) || (c =? 0x2E) || (c =? 0x3A) || (c =? 0x5E) || (c =? 0x60) ||
  (c =? 0x307).

Definition latin_tables : CaseTables := {|
  tolower_full := latin_tolower;
  is_cased := latin_is_cased;
  is_case_ignorable := latin_is_case_ignorable
|}.

(** The ruleset of the end-to-end examples of the specification. *)
Definition sample_ruleset : pyval :=
  PyDict
    [ (lit "status_labels",
       PyDict [ (lit "halal", PyStr (lit "HALAL"));
                (lit "haram", PyStr (lit "HARAM"));
                (lit "review", PyStr (lit "REVIEW")) ]);
      (lit "rules",
       PyDict [ (lit "haram_contains", PyList [PyStr (lit "pork")]);
                (lit "halal_contains", PyList [PyStr (lit "water")]) ]);
      (lit "overrides",
       PyDict [ (lit "exact",
                 PyDict [ (lit "Beef Extract",
                           PyDict [ (lit "status", PyStr (lit "review")) ]) ]) ]) ].

Local Open Scope nat_scope.

(** The text [s] with a double quote in place of every apostrophe. *)
Definition quoted (s : string) : str :=
  map (fun c => if (c =? 0x27)%N then QUOTE else c) (lit s).

(** A rules file with comments; the first string holds [//]. *)
Definition sample_rules_text : str :=
  quoted "{ // labels: 'key': 'text'
  'status_labels': {'halal': 'HALAL', 'haram': 'HARAM // forbidden',
                    'review': 'REVIEW'},
  /* keyword tiers,
     haram first */
  'rules': {'haram_contains': ['pork'], 'halal_contains': ['water']}
}".

(** A configuration whose strings hold [//], [/*] and an escaped quote. *)
Definition sample_strings_only : str :=
  lit "{ " ++ [QUOTE] ++ lit "a//b" ++ [BACKSLASH; QUOTE] ++ lit "/*c*/" ++
  [QUOTE] ++ lit ": 1 }".

(** What the decoder reads in [sample_rules_text]. *)
Definition sample_rules : pyval :=
  PyDict
    [ (lit "status_labels",
       PyDict [ (lit "halal", PyStr (lit "HALAL"));
                (lit "haram", PyStr (lit "HARAM // forbidden"));
                (lit "review", PyStr (lit "REVIEW")) ]);
      (lit "rules",
       PyDict [ (lit "haram_contains", PyList [PyStr (lit "pork")]);
                (lit "halal_contains", PyList [PyStr (lit "water")]) ]) ].

(** A configuration that is not valid: its rules are null, and it has one
    override. *)
Definition sample_override_only : list (str * pyval) :=
  [ (lit "status_labels", PyDict [ (lit "halal", PyStr (lit "HALAL")) ]);
    (lit "rules", PyNone);
    (lit "overrides",
     PyDict [ (lit "exact",
               PyDict [ (lit "Sea Salt",
                         PyDict [ (lit "status", PyStr (lit "halal")) ]) ]) ]) ].

(** A data frame of three rows: one without a status, one with a status and
    one with a blank status. *)
Definition sample_rows : list row :=
  [ {| material_name := CStr (lit "Pork Gelatin");
       halal_status := CNA; reason := CNA |};
    {| material_name := CStr (lit "water");
       halal_status := CStr (lit "checked"); reason := CStr (lit "by hand") |};
    {| material_name := CStr (lit "Sea Salt");
       halal_status := CStr (lit "  "); reason := CStr (lit "old") |} ].

(** The report of a run over [sample_rows] with [sample_rules_text], without
    overwriting and writing the output. *)
Definition sample_report : report :=
  {| final_rows :=
       [ {| material_name := CStr (lit "Pork Gelatin");
            halal_status := CStr (lit "HARAM // forbidden");
            reason := CStr (HARAM_REASON ++ lit "pork") |};
         {| material_name := CStr (lit "water");
            halal_status := CStr (lit "checked");
            reason := CStr (lit "by hand") |};
         {| material_name := CStr (lit "Sea Salt");
            halal_status := CNA; reason := CNA |} ];
     updated := 2;
     written := true |}.

(** * Part III: proofs *)

Section Proofs.
Context {UCD : CaseTables}.
Variable loads : str -> py pyval.
Variable string_cell : pyval -> py cell.

(** ** The string methods *)

Lemma nonspace_false (c : char) : isspace c = true -> nonspace c = false.
Proof. unfold nonspace. intros ->. reflexivity. Qed.

Lemma nonspace_true (c : char) : isspace c = false -> nonspace c = true.
Proof. unfold nonspace. intros ->. reflexivity. Qed.

Local Open Scope N_scope.

Lemma lstrip_split (s : str) :
  exists lead, s = lead ++ lstrip s /\ forallb isspace lead = true.
Proof.
  induction s as [|c r [lead [E F]]]; simpl.
  - exists []. split; reflexivity.
  - destruct (isspace c) eqn:W.
    + exists (c :: lead). simpl. rewrite W, F. split; [congruence | reflexivity].
    + exists []. split; reflexivity.
Qed.

Lemma lstrip_starts (s : str) : starts_with_space (lstrip s) = false.
Proof.
  induction s as [|c r IH]; simpl; [reflexivity|].
  destruct (isspace c) eqn:W; [exact IH | simpl; exact W].
Qed.

Lemma lstrip_fixed (s : str) : starts_with_space s = false -> lstrip s = s.
Proof. destruct s as [|c r]; simpl; [reflexivity | intros ->; reflexivity]. Qed.

Lemma lstrip_nonspace (s : str) : forallb nonspace s = true -> lstrip s = s.
Proof.
  intros H. apply lstrip_fixed. destruct s as [|c r]; simpl in *; [reflexivity|].
  apply andb_prop in H. destruct H as [H _]. unfold nonspace in H.
  destruct (isspace c); [discriminate | reflexivity].
Qed.

Lemma forallb_rev {A} (f : A -> bool) (l : list A) :
  forallb f (rev l) = forallb f l.
Proof.
  induction l as [|a l IH]; simpl; [reflexivity|].
  rewrite forallb_app, IH. simpl. rewrite andb_true_r. apply andb_comm.
Qed.

Lemma rstrip_split (s : str) :
  exists trail, s = rstrip s ++ trail /\ forallb isspace trail = true.
Proof.
  unfold rstrip. destruct (lstrip_split (rev s)) as [lead [E F]].
  exists (rev lead). split.
  - rewrite <- rev_app_distr, <- E. symmetry. apply rev_involutive.
  - rewrite forallb_rev. exact F.
Qed.

Lemma rstrip_ends (s : str) : ends_with_space (rstrip s) = false.
Proof.
  unfold ends_with_space, rstrip. rewrite rev_involutive. apply lstrip_starts.
Qed.

Lemma rstrip_nonspace (s : str) : forallb nonspace s = true -> rstrip s = s.
Proof.
  intros H. unfold rstrip. rewrite lstrip_nonspace.
  - apply rev_involutive.
  - rewrite forallb_rev. exact H.
Qed.

(** Trimming the right end leaves the left end as it was. *)
Lemma rstrip_starts (s : str) :
  starts_with_space s = false -> starts_with_space (rstrip s) = false.
Proof.
  intros H. destruct (rstrip_split s) as [trail [E F]].
  destruct (rstrip s) as [|c r] eqn:R; [reflexivity|].
  rewrite E in H. simpl in *. exact H.
Qed.

(** [s.strip()] removes a whitespace prefix and a whitespace suffix, and what
    is left neither starts nor ends with whitespace. *)
Lemma py_strip_spec (s : str) :
  exists lead trail,
    s = lead ++ py_strip s ++ trail /\
    forallb isspace lead = true /\ forallb isspace trail = true /\
    starts_with_space (py_strip s) = false /\
    ends_with_space (py_strip s) = false.
Proof.
  unfold py_strip.
  destruct (lstrip_split s) as [lead [E F]].
  destruct (rstrip_split (lstrip s)) as [trail [E' F']].
  exists lead, trail. repeat split; try assumption.
  - rewrite <- E'. exact E.
  - apply rstrip_starts, lstrip_starts.
  - apply rstrip_ends.
Qed.

Lemma py_strip_nonspace (s : str) : forallb nonspace s = true -> py_strip s = s.
Proof.
  intros H. unfold py_strip. rewrite (lstrip_nonspace H). apply rstrip_nonspace, H.
Qed.

Lemma filter_lstrip (s : str) : filter nonspace (lstrip s) = filter nonspace s.
Proof.
  induction s as [|c r IH]; simpl; [reflexivity|].
  destruct (isspace c) eqn:W.
  - rewrite (nonspace_false W). exact IH.
  - reflexivity.
Qed.

(** Replacing every run of whitespace by nothing deletes exactly the
    whitespace characters. *)
Lemma re_sub_ws_filter (s : str) : re_sub_ws s = filter nonspace s.
Proof.
  funelim (re_sub_ws s); simp re_sub_ws.
  - reflexivity.
  - simpl. rewrite (nonspace_false Heq).
    rewrite <- filter_lstrip. assumption.
  - simpl. rewrite (nonspace_true Heq). f_equal. assumption.
Qed.

Lemma filter_forallb {A} (f : A -> bool) (l : list A) :
  forallb f (filter f l) = true.
Proof.
  induction l as [|a l IH]; simpl; [reflexivity|].
  destruct (f a) eqn:F; simpl; [rewrite F|]; exact IH.
Qed.

Lemma filter_fixed {A} (f : A -> bool) (l : list A) :
  forallb f l = true -> filter f l = l.
Proof.
  induction l as [|a l IH]; simpl; [reflexivity|].
  intros H. apply andb_prop in H. destruct H as [Ha Hl].
  rewrite Ha, (IH Hl). reflexivity.
Qed.

(** ** normalize *)

Lemma normalize_str (s : str) :
  normalize s = filter nonspace (py_lower (py_strip s)).
Proof. unfold normalize. simpl. apply re_sub_ws_filter. Qed.

Lemma normalize_nonspace {A} `{PyObject A} (x : A) :
  forallb nonspace (normalize x) = true.
Proof.
  unfold normalize. destruct (as_str x); [|reflexivity].
  rewrite re_sub_ws_filter. apply filter_forallb.
Qed.

Lemma lower_from_fixed (s before : str) :
  Forall lower_fixed s -> lower_from before s = s.
Proof.
  revert before. induction s as [|c r IH]; intros before H; simpl; [reflexivity|].
  inversion H as [|c' r' [Hc Hs] Hr]; subst.
  unfold lower_ucs4. destruct (N.eqb_spec c CAPITAL_SIGMA); [contradiction|].
  rewrite Hc. simpl. f_equal. apply IH, Hr.
Qed.

Lemma handle_capital_sigma_fixed (before after : str) :
  lowercase_is_stable UCD -> lower_fixed (handle_capital_sigma before after).
Proof.
  intros [_ [Hf Hs]]. unfold handle_capital_sigma.
  match goal with |- lower_fixed (if ?b then _ else _) => destruct b end;
    (split; [assumption | discriminate]).
Qed.

Lemma lower_from_stable (s before : str) :
  lowercase_is_stable UCD -> Forall lower_fixed (lower_from before s).
Proof.
  intros St. revert before. induction s as [|c r IH]; intros before; simpl.
  - constructor.
  - apply Forall_app. split; [|apply IH].
    unfold lower_ucs4. destruct (N.eqb_spec c CAPITAL_SIGMA) as [|Hc].
    + constructor; [|constructor]. apply handle_capital_sigma_fixed, St.
    + apply Forall_forall. intros d Hd. destruct St as [H1 _].
      exact (H1 c d Hc Hd).
Qed.

Lemma Forall_filter {A} (P : A -> Prop) (f : A -> bool) (l : list A) :
  Forall P l -> Forall P (filter f l).
Proof.
  induction 1 as [|a l Ha Hl IH]; simpl; [constructor|].
  destruct (f a); [constructor|]; assumption.
Qed.

Lemma normalize_lower_fixed {A} `{PyObject A} (x : A) :
  lowercase_is_stable UCD -> Forall lower_fixed (normalize x).
Proof.
  intros St. unfold normalize. destruct (as_str x); [|constructor].
  rewrite re_sub_ws_filter. apply Forall_filter, lower_from_stable, St.
Qed.

(** C6: normalize maps a value that is not a string to the empty string, and
    a string to its text without the leading and the trailing whitespace,
    lowercased, with every whitespace character that is left deleted; no
    whitespace of any kind remains in the result.  The function is total: no
    input makes it raise. *)
Theorem normalize_contract {A} `{PyObject A} (x : A) :
  match as_str x with
  | None => normalize x = []
  | Some s =>
      exists lead core trail,
        s = lead ++ core ++ trail /\
        forallb isspace lead = true /\ forallb isspace trail = true /\
        starts_with_space core = false /\ ends_with_space core = false /\
        normalize x = filter nonspace (py_lower core)
  end /\
  forallb nonspace (normalize x) = true.
Proof.
  split; [|apply normalize_nonspace].
  unfold normalize. destruct (as_str x) as [s|]; [|reflexivity].
  destruct (py_strip_spec s) as [lead [trail [E [Fl [Ft [Hs He]]]]]].
  exists lead, (py_strip s), trail. repeat split; try assumption.
  apply re_sub_ws_filter.
Qed.

(** C7: normalize is idempotent on every input, a string or not, given that
    the lowercase mapping of the Unicode tables is stable. *)
Theorem normalize_idempotent {A} `{PyObject A} (x : A) :
  lowercase_is_stable UCD ->
  normalize (normalize x) = normalize x.
Proof.
  intros St. rewrite normalize_str.
  rewrite (py_strip_nonspace (normalize_nonspace x)).
  unfold py_lower. rewrite (lower_from_fixed [] (normalize_lower_fixed x St)).
  apply filter_fixed, normalize_nonspace.
Qed.

(** ** strip_json_comments: the loop computes [scan] *)

Local Open Scope nat_scope.

Lemma getitem_skipn (raw_text : str) (i : nat) :
  i < length raw_text ->
  exists c, getitem raw_text i = Ok c /\
            skipn i raw_text = c :: skipn (i + 1) raw_text.
Proof.
  revert i. induction raw_text as [|a r IH]; intros i Hi; simpl in Hi; [lia|].
  destruct i as [|i].
  - exists a. split; reflexivity.
  - destruct (IH i) as [c [G E]]; [lia|]. exists c. split; [exact G | exact E].
Qed.

Lemma skipn_short (raw_text : str) (i : nat) :
  i + 1 >= length raw_text ->
  skipn i raw_text = [] \/ exists c, skipn i raw_text = [c].
Proof.
  intros Hi. pose proof (length_skipn i raw_text) as L.
  destruct (skipn i raw_text) as [|c [|d r]]; simpl in L.
  - left. reflexivity.
  - right. exists c. reflexivity.
  - lia.
Qed.

Lemma is_newline_plain (c : char) :
  is_newline c = true -> (c =? QUOTE)%N = false /\ (c =? SLASH)%N = false.
Proof.
  unfold is_newline. intros H. apply orb_prop in H.
  destruct H as [H|H]; apply N.eqb_eq in H; subst; split; reflexivity.
Qed.

Lemma scan_normal_single (c : char) : scan Normal [c] = [c].
Proof. unfold scan. simpl. destruct (c =? QUOTE)%N; reflexivity. Qed.

Lemma scan_normal_newline (c : char) (r : str) :
  is_newline c = true -> scan Normal (c :: r) = c :: scan Normal r.
Proof.
  intros H. destruct (is_newline_plain H) as [Hq Hs].
  unfold scan. simpl. rewrite Hq, Hs. destruct r; reflexivity.
Qed.

Lemma skip_line_spec (raw_text : str) (n i : nat) :
  n = length raw_text -> i <= n ->
  exists j, skip_line raw_text n i = Ok j /\ i <= j <= n /\
            scan LineComment (skipn i raw_text) = scan Normal (skipn j raw_text).
Proof.
  funelim (skip_line raw_text n i); intros Hn Hi.
  - exists i. repeat split; try lia.
    rewrite skipn_all2 by lia. reflexivity.
  - destruct (getitem_skipn (raw_text := raw_text) (i := i)) as [c [G E]]; [lia|].
    congruence.
  - destruct (getitem_skipn (raw_text := raw_text) (i := i)) as [c' [G E]]; [lia|].
    assert (c' = c) by congruence. subst c'.
    exists i. repeat split; try lia. rewrite E.
    rewrite (scan_normal_newline _ Heq). unfold scan. simpl. rewrite Heq. reflexivity.
  - destruct (getitem_skipn (raw_text := raw_text) (i := i)) as [c' [G E]]; [lia|].
    assert (c' = c) by congruence. subst c'.
    destruct H as [j [S [B Q]]]; [assumption | lia |].
    exists j. repeat split; try lia; [exact S|].
    rewrite E. unfold scan at 1. simpl. rewrite Heq. exact Q.
Qed.

Lemma scan_block_close (r : str) :
  scan BlockComment (STAR :: SLASH :: r) = scan Normal r.
Proof. reflexivity. Qed.

Lemma scan_block_skip (a b : char) (r : str) :
  (a =? STAR)%N && (b =? SLASH)%N = false ->
  scan BlockComment (a :: b :: r) = scan BlockComment (b :: r).
Proof. intros H. unfold scan at 1. cbn [kept mask]. rewrite H. reflexivity. Qed.

Ltac rewrite_eqb :=
  repeat match goal with H : (_ =? _)%N = _ |- _ => rewrite H end;
  rewrite ?andb_false_r; reflexivity.

Lemma skip_block_spec (raw_text : str) (n i : nat) :
  n = length raw_text -> i <= n ->
  exists j, skip_block raw_text n i = Ok j /\ i <= j /\ after_block n j <= n /\
            scan BlockComment (skipn i raw_text) =
            scan Normal (skipn (after_block n j) raw_text).
Proof.
  funelim (skip_block raw_text n i); intros Hn Hi.
  - (* fewer than two characters are left *)
    exists i. unfold after_block.
    destruct (Nat.ltb_spec (i + 1) n); [lia|].
    rewrite Nat.add_0_r. repeat split; try lia.
    destruct (skipn_short (raw_text := raw_text) (i := i)) as [E|[c E]]; [lia| |];
      rewrite E; [reflexivity|].
    rewrite scan_normal_single. reflexivity.
  - destruct (getitem_skipn (raw_text := raw_text) (i := i)) as [c [G E]]; [lia|].
    congruence.
  - (* not a star *)
    destruct (getitem_skipn (raw_text := raw_text) (i := i)) as [a' [G E]]; [lia|].
    destruct (getitem_skipn (raw_text := raw_text) (i := i + 1)) as [b' [G' E']]; [lia|].
    assert (a' = a) by congruence. subst a'.
    destruct H as [j [S [B [A Q]]]]; [assumption | lia |].
    exists j. repeat split; try lia; [exact S|].
    rewrite E, E'. rewrite scan_block_skip by rewrite_eqb.
    rewrite <- E'. exact Q.
  - destruct (getitem_skipn (raw_text := raw_text) (i := i + 1)) as [c [G E]]; [lia|].
    congruence.
  - (* the comment closes here *)
    destruct (getitem_skipn (raw_text := raw_text) (i := i)) as [a' [G E]]; [lia|].
    destruct (getitem_skipn (raw_text := raw_text) (i := i + 1)) as [b' [G' E']]; [lia|].
    assert (a' = a) by congruence. assert (b' = b) by congruence. subst a' b'.
    repeat match goal with H : (_ =? _)%N = true |- _ => apply N.eqb_eq in H end.
    subst a b.
    exists i. unfold after_block.
    destruct (Nat.ltb_spec (i + 1) n); [|lia].
    repeat split; try lia.
    rewrite E, E'. rewrite scan_block_close.
    replace (i + 1 + 1) with (i + 2) by lia. reflexivity.
  - (* a star that is not followed by a slash *)
    destruct (getitem_skipn (raw_text := raw_text) (i := i)) as [a' [G E]]; [lia|].
    destruct (getitem_skipn (raw_text := raw_text) (i := i + 1)) as [b' [G' E']]; [lia|].
    assert (a' = a) by congruence. assert (b' = b) by congruence. subst a' b'.
    destruct H as [j [S [B [A Q]]]]; [assumption | lia |].
    exists j. repeat split; try lia; [exact S|].
    rewrite E, E'. rewrite scan_block_skip by rewrite_eqb.
    rewrite <- E'. exact Q.
Qed.

Lemma scan_string (escaped : bool) (c : char) (r : str) :
  scan (InString escaped) (c :: r) = c :: scan (string_next escaped c) r.
Proof. reflexivity. Qed.

Lemma scan_normal_quote (c : char) (r : str) :
  (c =? QUOTE)%N = true -> scan Normal (c :: r) = c :: scan (InString false) r.
Proof. intros H. unfold scan. cbn [kept]. rewrite H. reflexivity. Qed.

Lemma scan_normal_line (c d : char) (r : str) :
  (c =? QUOTE)%N = false -> (c =? SLASH)%N && (d =? SLASH)%N = true ->
  scan Normal (c :: d :: r) = scan LineComment r.
Proof. intros Q H. unfold scan. cbn [kept]. rewrite Q, H. reflexivity. Qed.

Lemma scan_normal_block (c d : char) (r : str) :
  (c =? QUOTE)%N = false -> (c =? SLASH)%N && (d =? SLASH)%N = false ->
  (c =? SLASH)%N && (d =? STAR)%N = true ->
  scan Normal (c :: d :: r) = scan BlockComment r.
Proof. intros Q L B. unfold scan. cbn [kept]. rewrite Q, L, B. reflexivity. Qed.

Lemma scan_normal_copy (c : char) (r : str) :
  (c =? QUOTE)%N = false ->
  (c =? SLASH)%N && nxt_is (hd_error r) SLASH = false ->
  (c =? SLASH)%N && nxt_is (hd_error r) STAR = false ->
  scan Normal (c :: r) = c :: scan Normal r.
Proof.
  intros Q L B. unfold scan. cbn [kept]. rewrite Q.
  destruct r as [|d r']; [reflexivity|]. cbn [hd_error nxt_is] in L, B.
  rewrite L, B. reflexivity.
Qed.

(** The lookahead [nxt] is the first character of what follows [ch]. *)
Lemma nxt_spec (raw_text : str) (n i : nat) :
  n = length raw_text ->
  (if i + 1 <? n
   then c <- getitem raw_text (i + 1) ;; Ok (Some c)
   else Ok None) = Ok (hd_error (skipn (i + 1) raw_text)).
Proof.
  intros Hn. destruct (Nat.ltb_spec (i + 1) n) as [Hlt|Hge].
  - destruct (getitem_skipn (raw_text := raw_text) (i := i + 1)) as [d [G E]]; [lia|].
    rewrite G, E. reflexivity.
  - rewrite skipn_all2 by lia. reflexivity.
Qed.

Lemma loop_body_spec (raw_text : str) (n : nat) (s : scanner) :
  n = length raw_text -> st_i s < n -> flags_ok s ->
  exists s', loop_body raw_text n s = Ok s' /\
    st_i s' <= n /\ flags_ok s' /\
    st_result s ++ scan (mode_of s) (skipn (st_i s) raw_text) =
    st_result s' ++ scan (mode_of s') (skipn (st_i s') raw_text).
Proof.
  intros Hn Hi Hf. unfold loop_body.
  destruct (getitem_skipn (raw_text := raw_text) (i := st_i s)) as [ch [G E]]; [lia|].
  rewrite G, E, (nxt_spec _ Hn). cbn [bind].
  unfold mode_of at 1. destruct (st_in_string s) eqn:IS.
  - (* inside a string *)
    rewrite scan_string. unfold string_next.
    destruct (st_escaped s); [|destruct (ch =? BACKSLASH)%N; [|destruct (ch =? QUOTE)%N]].
    all: eexists; split; [reflexivity|]; unfold mode_of, flags_ok;
      cbn [st_result st_i st_in_string st_escaped].
    all: repeat split; try lia; try congruence.
    all: rewrite <- app_assoc; reflexivity.
  - destruct (ch =? QUOTE)%N eqn:Q.
    { eexists; split; [reflexivity|]; unfold mode_of, flags_ok;
        cbn [st_result st_i st_in_string st_escaped].
      rewrite (Hf IS), (scan_normal_quote _ Q), <- app_assoc.
      repeat split; try lia; congruence. }
    destruct ((ch =? SLASH)%N && nxt_is (hd_error (skipn (st_i s + 1) raw_text)) SLASH)
      eqn:LC.
    { (* a line comment *)
      destruct (skipn (st_i s + 1) raw_text) as [|d r'] eqn:E'; cbn [hd_error nxt_is] in LC;
        [rewrite andb_false_r in LC; discriminate|].
      assert (st_i s + 1 < n).
      { destruct (Nat.ltb_spec (st_i s + 1) n); [assumption|].
        rewrite skipn_all2 in E' by lia. discriminate. }
      destruct (getitem_skipn (raw_text := raw_text) (i := st_i s + 1)) as [d' [_ E2]]; [lia|].
      rewrite E' in E2. injection E2 as _ E2.
      replace (st_i s + 1 + 1) with (st_i s + 2) in E2 by lia.
      destruct (skip_line_spec (raw_text := raw_text) (n := n) (i := st_i s + 2))
        as [j [S [B R]]]; [assumption | lia |].
      rewrite S. cbn [bind]. eexists; split; [reflexivity|]; unfold mode_of, flags_ok;
        cbn [st_result st_i st_in_string st_escaped].
      repeat split; try lia; try (intros; apply Hf; assumption).
      f_equal. rewrite (scan_normal_line _ Q LC), E2. exact R. }
    destruct ((ch =? SLASH)%N && nxt_is (hd_error (skipn (st_i s + 1) raw_text)) STAR)
      eqn:BC.
    { (* a block comment *)
      destruct (skipn (st_i s + 1) raw_text) as [|d r'] eqn:E'; cbn [hd_error nxt_is] in LC, BC;
        [rewrite andb_false_r in BC; discriminate|].
      assert (st_i s + 1 < n).
      { destruct (Nat.ltb_spec (st_i s + 1) n); [assumption|].
        rewrite skipn_all2 in E' by lia. discriminate. }
      destruct (getitem_skipn (raw_text := raw_text) (i := st_i s + 1)) as [d' [_ E2]]; [lia|].
      rewrite E' in E2. injection E2 as _ E2.
      replace (st_i s + 1 + 1) with (st_i s + 2) in E2 by lia.
      destruct (skip_block_spec (raw_text := raw_text) (n := n) (i := st_i s + 2))
        as [j [S [B [A R]]]]; [assumption | lia |].
      rewrite S. cbn [bind]. eexists; split; [reflexivity|]; unfold mode_of, flags_ok;
        cbn [st_result st_i st_in_string st_escaped].
      repeat split; try (exact A); try (intros; apply Hf; assumption).
      f_equal. rewrite (scan_normal_block _ Q LC BC), E2. exact R. }
    eexists; split; [reflexivity|]; unfold mode_of, flags_ok;
      cbn [st_result st_i st_in_string st_escaped].
    rewrite (scan_normal_copy Q LC BC), <- app_assoc.
    repeat split; try lia; try (intros; apply Hf; assumption).
Qed.

(** The loop, started anywhere in the text, ends without raising and has
    appended what [scan] says. *)
Lemma while_loop_spec (raw_text : str) (n : nat) (s : scanner) :
  n = length raw_text -> st_i s <= n -> flags_ok s ->
  exists s', while_loop raw_text n s = Ok s' /\
    st_result s' = st_result s ++ scan (mode_of s) (skipn (st_i s) raw_text).
Proof.
  funelim (while_loop raw_text n s); intros Hn Hi Hf.
  - exists s. split; [reflexivity|].
    rewrite skipn_all2 by lia. destruct (mode_of s); unfold scan; simpl;
      rewrite app_nil_r; reflexivity.
  - destruct (loop_body_spec Hn l Hf) as [s'' [B [I [F R]]]].
    assert (s'' = s') by congruence. subst s''.
    destruct (H Hn I F) as [s2 [W R2]].
    exists s2. split; [exact W|]. rewrite R2, R. reflexivity.
  - destruct (loop_body_spec Hn l Hf) as [s'' [B _]]. congruence.
Qed.

(** The function returns for every text, and returns [scan Normal]. *)
Lemma strip_json_comments_scan (raw_text : str) :
  strip_json_comments raw_text = Ok (scan Normal raw_text).
Proof.
  unfold strip_json_comments.
  edestruct (while_loop_spec (raw_text := raw_text) (n := length raw_text)) as [s' [W R]];
    [reflexivity | | | rewrite W].
  - simpl. lia.
  - intros _. reflexivity.
  - cbn [bind]. rewrite R. reflexivity.
Qed.

(** ** strip_json_comments: what [scan] keeps *)

(** Induction on a text that is read one or two characters at a time. *)
Lemma str_pair_ind (P : str -> Prop) :
  P [] -> (forall c, P [c]) ->
  (forall c d r, P r -> P (d :: r) -> P (c :: d :: r)) ->
  forall s, P s.
Proof.
  intros H0 H1 H2 s.
  assert (H : P s /\ forall c, P (c :: s)); [|apply H].
  induction s as [|d r [IHr IHd]]; split; auto.
Qed.

Lemma kept_length (s : str) : forall m, length (kept m s) = length s.
Proof.
  induction s as [|c|c d r IHr IHd] using str_pair_ind; intros m.
  - reflexivity.
  - destruct m; cbn [kept]; try reflexivity.
    + destruct (c =? QUOTE)%N; reflexivity.
    + destruct (is_newline c); reflexivity.
  - remember (d :: r) as t eqn:T.
    destruct m; cbn [kept]; subst t; cbv beta iota.
    + destruct (c =? QUOTE)%N; [cbn [length]; rewrite IHd; reflexivity|].
      destruct ((c =? SLASH)%N && (d =? SLASH)%N); [cbn [length]; rewrite IHr; reflexivity|].
      destruct ((c =? SLASH)%N && (d =? STAR)%N); cbn [length];
        [rewrite IHr | rewrite IHd]; reflexivity.
    + cbn [length]. rewrite IHd. reflexivity.
    + destruct (is_newline c); cbn [length]; rewrite IHd; reflexivity.
    + destruct ((c =? STAR)%N && (d =? SLASH)%N); cbn [length];
        [rewrite IHr | rewrite IHd]; reflexivity.
Qed.

Ltac kept_position IHr IHd :=
  let i := fresh "i" in
  let l := fresh "l" in
  let E := fresh "E" in
  let N := fresh "N" in
  intros i l E N;
  repeat (destruct i as [|i]; cbn [nth_error] in E |- *;
          [injection E as <-; solve [reflexivity | contradiction N; reflexivity]|]);
  first [eapply IHr; eassumption | eapply IHd; eassumption
        | destruct i; discriminate].

(** Only characters of comments are deleted. *)
Lemma kept_outside_comments (s : str) :
  forall m i l, nth_error (lexemes m s) i = Some l -> l <> CommentChar ->
                nth_error (kept m s) i = Some true.
Proof.
  induction s as [|c|c d r IHr IHd] using str_pair_ind; intros m.
  - intros i l E. destruct m, i; discriminate.
  - destruct m; cbn [kept lexemes].
    + destruct (c =? QUOTE)%N; kept_position IHr IHr.
    + kept_position IHr IHr.
    + destruct (is_newline c); kept_position IHr IHr.
    + kept_position IHr IHr.
  - remember (d :: r) as t eqn:T.
    destruct m; cbn [kept lexemes]; subst t; cbv beta iota.
    + destruct (c =? QUOTE)%N; [kept_position IHr IHd|].
      destruct ((c =? SLASH)%N && (d =? SLASH)%N); [kept_position IHr IHd|].
      destruct ((c =? SLASH)%N && (d =? STAR)%N); kept_position IHr IHd.
    + kept_position IHr IHd.
    + destruct (is_newline c); kept_position IHr IHd.
    + destruct ((c =? STAR)%N && (d =? SLASH)%N); kept_position IHr IHd.
Qed.

(** Every character of a string is kept. *)
Lemma kept_strings (s : str) (m : mode) (i : nat) :
  nth_error (lexemes m s) i = Some StringChar ->
  nth_error (kept m s) i = Some true.
Proof. intros E. apply (kept_outside_comments E). discriminate. Qed.

(** Without comment openers outside strings, every character is copied. *)
Lemma scan_comment_free (s : str) :
  forall m, (m = Normal \/ exists e, m = InString e) ->
            no_comment_outside_strings m s = true -> scan m s = s.
Proof.
  induction s as [|c r IH]; intros m Hm H; [destruct m; reflexivity|].
  destruct Hm as [->|[e ->]]; cbn [no_comment_outside_strings] in H.
  - destruct (c =? QUOTE)%N eqn:Q.
    + rewrite (scan_normal_quote _ Q). f_equal. apply IH; [right; eexists; reflexivity | exact H].
    + apply andb_prop in H. destruct H as [N H].
      apply negb_true_iff in N.
      rewrite scan_normal_copy; try assumption.
      * f_equal. apply IH; [left; reflexivity | exact H].
      * destruct (c =? SLASH)%N; [|reflexivity]. simpl in *.
        apply orb_false_elim in N. apply N.
      * destruct (c =? SLASH)%N; [|reflexivity]. simpl in *.
        apply orb_false_elim in N. apply N.
  - rewrite scan_string. f_equal. apply IH; [|exact H].
    unfold string_next. destruct e; [right; eexists; reflexivity|].
    destruct (c =? BACKSLASH)%N; [right; eexists; reflexivity|].
    destruct (c =? QUOTE)%N; [left | right; eexists]; reflexivity.
Qed.

Lemma subsequence_nil_l {A} (l : list A) : subsequence [] l.
Proof. induction l; constructor; assumption. Qed.

Lemma mask_subsequence (m : list bool) (s : str) : subsequence (mask m s) s.
Proof.
  revert m. induction s as [|c r IH]; intros [|b m]; simpl;
    try apply subsequence_nil_l.
  destruct b; constructor; apply IH.
Qed.

Lemma subsequence_length {A} (l1 l2 : list A) :
  subsequence l1 l2 -> length l1 <= length l2.
Proof. induction 1; simpl; lia. Qed.

(** C3: a text with no [//] and no [/*] outside its strings is returned as it
    is; and for every text the output is the input with some characters
    deleted, none of which lies in a double-quoted string: the characters of
    every string, whatever they are, are all kept, unchanged and in place. *)
Theorem strip_json_comments_preserves_strings (raw_text : str) :
  (comment_free raw_text = true ->
   strip_json_comments raw_text = Ok raw_text) /\
  exists keep : list bool,
    length keep = length raw_text /\
    strip_json_comments raw_text = Ok (mask keep raw_text) /\
    forall i, nth_error (lexemes Normal raw_text) i = Some StringChar ->
              nth_error keep i = Some true.
Proof.
  split.
  - intros H. rewrite strip_json_comments_scan. f_equal.
    apply scan_comment_free; [left; reflexivity | exact H].
  - exists (kept Normal raw_text). split; [apply kept_length|].
    split; [apply strip_json_comments_scan | apply kept_strings].
Qed.

(** C10: the output is a subsequence of the input, so it is no longer than
    the input. *)
Theorem strip_json_comments_subsequence (raw_text : str) :
  exists out : str,
    strip_json_comments raw_text = Ok out /\
    subsequence out raw_text /\
    length out <= length raw_text.
Proof.
  exists (scan Normal raw_text). split; [apply strip_json_comments_scan|].
  assert (S : subsequence (scan Normal raw_text) raw_text)
    by apply mask_subsequence.
  split; [exact S | apply subsequence_length, S].
Qed.

(** A block comment that is never closed gives back its last character. *)
Lemma scan_block_unterminated (body : str) (c : char) :
  has_block_end (body ++ [c]) = false ->
  scan BlockComment (body ++ [c]) = [c].
Proof.
  induction body as [|a r IH]; intros H; [reflexivity|].
  cbn [app has_block_end] in H. apply orb_false_elim in H. destruct H as [H1 H2].
  destruct (r ++ [c]) as [|d t] eqn:E; [destruct r; discriminate|].
  cbn [app]. rewrite E. cbn [hd_error nxt_is] in H1.
  rewrite scan_block_skip by exact H1. apply IH, H2.
Qed.

Lemma strip_block_unterminated (body : str) (c : char) :
  has_block_end (body ++ [c]) = false ->
  strip_json_comments (SLASH :: STAR :: body ++ [c]) = Ok [c].
Proof.
  intros H. rewrite strip_json_comments_scan. f_equal.
  rewrite scan_normal_block by reflexivity. apply scan_block_unterminated, H.
Qed.

(** ** Strings *)

Lemma str_eqb_eq (a b : str) : str_eqb a b = true <-> a = b.
Proof.
  revert b. induction a as [|x a IH]; intros [|y b]; simpl; split;
    try discriminate; try reflexivity.
  - intros H. apply andb_prop in H. destruct H as [H1 H2].
    apply N.eqb_eq in H1. apply IH in H2. congruence.
  - intros H. injection H as -> ->. unfold char_eqb. rewrite N.eqb_refl.
    apply IH. reflexivity.
Qed.

Lemma str_eqb_refl (a : str) : str_eqb a a = true.
Proof. apply str_eqb_eq. reflexivity. Qed.

Lemma starts_with_spec (needle s : str) :
  starts_with needle s = true <-> exists post, s = needle ++ post.
Proof.
  revert s. induction needle as [|a needle IH]; intros s; simpl.
  - split; [intros _; exists s; reflexivity | reflexivity].
  - destruct s as [|b s].
    + split; [discriminate | intros [post H]; discriminate].
    + split.
      * intros H. apply andb_prop in H. destruct H as [H1 H2].
        apply N.eqb_eq in H1. apply IH in H2. destruct H2 as [post ->].
        exists post. congruence.
      * intros [post H]. injection H as -> ->. unfold char_eqb.
        rewrite N.eqb_refl. apply IH. exists post. reflexivity.
Qed.

(** [needle in hay] holds exactly when [needle] occurs in [hay] as a run of
    consecutive characters. *)
Lemma str_in_spec (needle hay : str) :
  str_in needle hay = true <-> exists pre post, hay = pre ++ needle ++ post.
Proof.
  induction hay as [|c hay IH]; simpl.
  - rewrite orb_false_r, starts_with_spec. split.
    + intros [post H]. exists [], post. exact H.
    + intros [pre [post H]]. destruct pre; [exists post; exact H | discriminate].
  - split.
    + intros H. apply orb_prop in H. destruct H as [H|H].
      * apply starts_with_spec in H. destruct H as [post H].
        exists [], post. exact H.
      * apply IH in H. destruct H as [pre [post ->]].
        exists (c :: pre), post. reflexivity.
    + intros [pre [post H]]. apply orb_true_iff. destruct pre as [|p pre].
      * left. apply starts_with_spec. exists post. exact H.
      * right. apply IH. injection H as _ ->. exists pre, post. reflexivity.
Qed.

Lemma lstrip_empty (s : str) : lstrip s = [] <-> forallb isspace s = true.
Proof.
  induction s as [|c r IH]; simpl; [split; reflexivity|].
  destruct (isspace c); simpl; [exact IH | split; discriminate].
Qed.

(** [s.strip()] is empty exactly when [s] has whitespace only. *)
Lemma py_strip_empty (s : str) : py_strip s = [] <-> forallb isspace s = true.
Proof.
  split.
  - intros H. destruct (py_strip_spec s) as [lead [trail [E [Fl [Ft _]]]]].
    rewrite H in E. rewrite E. simpl. rewrite forallb_app, Fl, Ft. reflexivity.
  - intros H. unfold py_strip. apply lstrip_empty in H. rewrite H. reflexivity.
Qed.

(** ** should_update *)

(** C8: with the overwrite flag set the answer is true whatever the status
    is; without it the answer is true exactly when the status is missing or
    is a string of whitespace only, the empty string among them, and false in
    every other case. *)
Theorem should_update_rule (existing_status : cell) (overwrite : bool) :
  should_update existing_status overwrite = true <->
  overwrite = true \/
  missing existing_status \/
  exists s, existing_status = CStr s /\ forallb isspace s = true.
Proof.
  unfold should_update, missing. destruct overwrite; [split; auto|].
  destruct existing_status as [| | b | z | [|t] | s]; simpl.
  all: try (split; [intros _; auto | reflexivity]).
  all: try (split; [discriminate |
                    intros [H|[[H|[H|H]]|[s [H _]]]]; discriminate]).
  destruct (str_eqb (py_strip s) []) eqn:E.
  - apply str_eqb_eq, py_strip_empty in E. split; [|reflexivity].
    intros _. right. right. exists s. split; [reflexivity | exact E].
  - split; [discriminate|].
    intros [H|[[H|[H|H]]|[s' [H W]]]]; try discriminate.
    injection H as <-. apply py_strip_empty, str_eqb_eq in W. congruence.
Qed.

(** ** keyword_match *)

(** C2: the keyword is normalized first.  An empty normalized keyword
    matches nothing; one of a single character matches the text equal to it
    and no other; a longer one matches the texts in which it occurs as a run
    of consecutive characters.  The subject is the text the function is given,
    which [classify_material] has normalized. *)
Theorem keyword_match_rule (normalized_text : str) (keyword : pyval) :
  keyword_match normalized_text keyword = true <->
  match normalize keyword with
  | [] => False
  | [c] => normalized_text = [c]
  | normalized_keyword =>
      exists pre post, normalized_text = pre ++ normalized_keyword ++ post
  end.
Proof.
  unfold keyword_match. destruct (normalize keyword) as [|c [|d k]].
  - split; [discriminate | contradiction].
  - simpl. apply str_eqb_eq.
  - cbn [length Nat.eqb]. apply str_in_spec.
Qed.

(** Only a string is accepted as a keyword. *)
Lemma keyword_match_str (normalized_text : str) (keyword : pyval) :
  keyword_match normalized_text keyword = true ->
  PyStr (py_format keyword) = keyword.
Proof.
  unfold keyword_match, normalize. destruct keyword; simpl; try discriminate.
  reflexivity.
Qed.

(** ** classify_material *)

Lemma find_first_match {A} (P : A -> bool) (l : list A) :
  first_match P l (find P l).
Proof.
  induction l as [|a l IH]; simpl.
  - apply first_match_none. reflexivity.
  - destruct (P a) eqn:Pa.
    + apply (@first_match_some _ P [] a l); [reflexivity | exact Pa].
    + inversion IH as [l' N E1 E2 | pre x post N Px E1 E2].
      * apply first_match_none. simpl. rewrite Pa. exact N.
      * apply (@first_match_some _ P (a :: pre) x post); [|exact Px].
        simpl. rewrite Pa. exact N.
Qed.

Lemma first_match_find {A} (P : A -> bool) (l : list A) (o : option A) :
  first_match P l o -> o = find P l.
Proof.
  intros [l' N | pre x post N Px].
  - induction l' as [|a l' IH]; simpl in *; [reflexivity|].
    apply andb_prop in N. destruct N as [Na N].
    apply negb_true_iff in Na. rewrite Na. apply IH, N.
  - induction pre as [|a pre IH]; simpl in *.
    + rewrite Px. reflexivity.
    + apply andb_prop in N. destruct N as [Na N].
      apply negb_true_iff in Na. rewrite Na. apply IH, N.
Qed.

(** The first match is unique. *)
Lemma first_match_unique {A} (P : A -> bool) (l : list A) (o1 o2 : option A) :
  first_match P l o1 -> first_match P l o2 -> o1 = o2.
Proof.
  intros H1 H2. apply first_match_find in H1, H2. congruence.
Qed.

Lemma overrides_loop_valid (labels : list (str * pyval)) (normalized : str)
  (items : list (str * pyval)) :
  forallb (fun kv => valid_override labels (snd kv)) items = true ->
  overrides_loop (PyDict labels) normalized items =
  Ok (option_map (override_result labels) (find (override_applies normalized) items)).
Proof.
  induction items as [|[key value] rest IH]; intros V; [reflexivity|].
  simpl in V. apply andb_prop in V. destruct V as [Vv Vr].
  cbn [overrides_loop find]. unfold override_applies at 1. cbn [fst].
  destruct (str_eqb (normalize key) normalized); [|apply IH, Vr].
  unfold valid_override in Vv. destruct value as [ | | | | | |fields]; try discriminate.
  apply andb_prop in Vv. destruct Vv as [Vs Vreason].
  unfold override_result, override_status, override_reason, label.
  cbn [py_getitem py_get snd option_map].
  destruct (dict_lookup (lit "status") fields) as [[ | | | |status| | ]|];
    try discriminate.
  unfold has_key in Vs. cbn [bind].
  destruct (dict_lookup (lit "reason") fields) as [reason|]; cbn [bind py_getitem];
    destruct (dict_lookup status labels); try discriminate; reflexivity.
Qed.

Lemma keywords_loop_valid (labels : list (str * pyval)) (normalized : str)
  (status reason : str) (keywords : list pyval) :
  has_key status labels = true ->
  keywords_loop (PyDict labels) normalized status reason keywords =
  Ok (option_map (keyword_result labels status reason)
        (find (keyword_match normalized) keywords)).
Proof.
  intros K. induction keywords as [|keyword rest IH]; [reflexivity|].
  cbn [keywords_loop find].
  destruct (keyword_match normalized keyword); [|exact IH].
  unfold keyword_result, label, has_key in *. cbn [py_getitem option_map].
  destruct (dict_lookup status labels); [reflexivity | discriminate].
Qed.

Lemma tier_valid (labels rules : list (str * pyval)) (normalized : str)
  (name status reason : str) :
  valid_tier rules name = true -> has_key status labels = true ->
  tier (PyDict labels) (PyDict rules) normalized name status reason =
  Ok (option_map (keyword_result labels status reason)
        (find (keyword_match normalized) (keywords_of rules name))).
Proof.
  intros V K. unfold tier, valid_tier, keywords_of in *. cbn [py_get].
  destruct (dict_lookup name rules) as [[ | | | | |keywords| ]|]; try discriminate;
    cbn [bind py_iter]; apply keywords_loop_valid, K.
Qed.

Lemma classify_material_decide (material_name : cell) (ruleset : pyval) :
  valid_ruleset ruleset = true ->
  classify_material material_name ruleset =
  Ok (decide (labels_of ruleset) (exact_of ruleset)
        (tier_of ruleset (lit "haram_contains"))
        (tier_of ruleset (lit "review_contains"))
        (tier_of ruleset (lit "halal_contains"))
        (normalize (name_text material_name))).
Proof.
  intros V. destruct ruleset as [ | | | | | |d]; try discriminate.
  unfold valid_ruleset in V.
  unfold classify_material, labels_of, exact_of, tier_of. cbn [py_getitem].
  revert V.
  destruct (dict_lookup (lit "status_labels") d) as [[ | | | | | |labels]|];
    try discriminate.
  destruct (dict_lookup (lit "rules") d) as [[ | | | | | |rules]|];
    try discriminate.
  intros V. repeat (apply andb_prop in V; destruct V as [V ?]).
  replace (match as_str material_name with Some s => s | None => [] end)
    with (name_text material_name) by (destruct material_name; reflexivity).
  set (normalized := normalize (name_text material_name)).
  assert (T : forall name status reason k,
             valid_tier rules name = true -> has_key status labels = true ->
             or_else (tier (PyDict labels) (PyDict rules) normalized name status reason) k =
             match find (keyword_match normalized) (keywords_of rules name) with
             | Some keyword => Ok (keyword_result labels status reason keyword)
             | None => k
             end).
  { intros name status reason k Vt Vk. unfold or_else.
    rewrite (tier_valid normalized reason Vt Vk). cbn [bind].
    destruct (find (keyword_match normalized) (keywords_of rules name)); reflexivity. }
  assert (O : forall exact k,
             forallb (fun kv => valid_override labels (snd kv)) exact = true ->
             or_else (overrides_loop (PyDict labels) normalized exact) k =
             match find (override_applies normalized) exact with
             | Some kv => Ok (override_result labels kv)
             | None => k
             end).
  { intros exact k Ve. unfold or_else. rewrite (overrides_loop_valid normalized Ve).
    cbn [bind]. destruct (find (override_applies normalized) exact); reflexivity. }
  cbn [bind py_get]. unfold decide. fold (keywords_of rules (lit "haram_contains")).
  fold (keywords_of rules (lit "review_contains")).
  fold (keywords_of rules (lit "halal_contains")).
  assert (R : forall exact,
    forallb (fun kv => valid_override labels (snd kv)) exact = true ->
    or_else (overrides_loop (PyDict labels) normalized exact)
      (or_else (tier (PyDict labels) (PyDict rules) normalized
                  (lit "haram_contains") (lit "haram") HARAM_REASON)
      (or_else (tier (PyDict labels) (PyDict rules) normalized
                  (lit "review_contains") (lit "review") REVIEW_REASON)
      (or_else (tier (PyDict labels) (PyDict rules) normalized
                  (lit "halal_contains") (lit "halal") HALAL_REASON)
      (Ok (PyNone, PyNone))))) =
    Ok match find (override_applies normalized) exact with
       | Some kv => override_result labels kv
       | None =>
       match find (keyword_match normalized) (keywords_of rules (lit "haram_contains")) with
       | Some keyword => keyword_result labels (lit "haram") HARAM_REASON keyword
       | None =>
       match find (keyword_match normalized) (keywords_of rules (lit "review_contains")) with
       | Some keyword => keyword_result labels (lit "review") REVIEW_REASON keyword
       | None =>
       match find (keyword_match normalized) (keywords_of rules (lit "halal_contains")) with
       | Some keyword => keyword_result labels (lit "halal") HALAL_REASON keyword
       | None => (PyNone, PyNone)
       end end end end).
  { intros exact Ve. rewrite (O _ _ Ve), !T by assumption.
    repeat match goal with |- context [find ?P ?l] => destruct (find P l) end;
      reflexivity. }
  unfold valid_overrides in *.
  destruct (dict_lookup (lit "overrides") d) as [[ | | | | | |overrides]|];
    try discriminate; cbn [bind py_get].
  - destruct (dict_lookup (lit "exact") overrides) as [[ | | | | | |exact]|];
      try discriminate; cbn [bind py_items]; apply R; [assumption | reflexivity].
  - cbn [dict_lookup bind py_items]. apply R. reflexivity.
Qed.

Lemma decision_decide (labels exact : list (str * pyval))
  (haram review halal : list pyval) (normalized : str) (result : pyval * pyval) :
  decision labels exact haram review halal normalized result ->
  result = decide labels exact haram review halal normalized.
Proof.
  intros D. unfold decide.
  destruct D;
    repeat match goal with
           | F : first_match _ _ _ |- _ =>
               apply first_match_find in F; rewrite <- F; clear F
           end; reflexivity.
Qed.

Lemma find_keyword_str (normalized : str) (keywords : list pyval) (keyword : pyval) :
  find (keyword_match normalized) keywords = Some keyword ->
  first_match (keyword_match normalized) keywords (Some (PyStr (py_format keyword))).
Proof.
  intros F. pose proof (find_first_match (keyword_match normalized) keywords) as M.
  rewrite F in M. apply find_some in F. destruct F as [_ F].
  rewrite (keyword_match_str F). exact M.
Qed.

Lemma decide_decision (labels exact : list (str * pyval))
  (haram review halal : list pyval) (normalized : str) :
  decision labels exact haram review halal normalized
    (decide labels exact haram review halal normalized).
Proof.
  unfold decide.
  pose proof (find_first_match (override_applies normalized) exact) as Mx.
  pose proof (find_first_match (keyword_match normalized) haram) as Mh.
  pose proof (find_first_match (keyword_match normalized) review) as Mr.
  pose proof (find_first_match (keyword_match normalized) halal) as Ml.
  destruct (find (override_applies normalized) exact) as [[key value]|].
  { apply decision_override with (key := key). exact Mx. }
  destruct (find (keyword_match normalized) haram) as [keyword|] eqn:Fh.
  { apply decision_haram; [exact Mx | apply find_keyword_str, Fh]. }
  destruct (find (keyword_match normalized) review) as [keyword|] eqn:Fr.
  { apply decision_review; [exact Mx | exact Mh | apply find_keyword_str, Fr]. }
  destruct (find (keyword_match normalized) halal) as [keyword|] eqn:Fl.
  { apply decision_halal; [exact Mx | exact Mh | exact Mr | apply find_keyword_str, Fl]. }
  apply decision_unmatched; assumption.
Qed.

(** C1: on a valid ruleset classify_material returns, and what it returns is
    the decision of the specification: the first exact override whose
    normalized key equals the normalized name, with the label of its status
    and its reason or the fixed reason; failing that the first haram keyword
    that matches, then the first review keyword, then the first halal keyword;
    and the pair of two absent values when nothing matches.  No other pair is
    a decision for the same name and ruleset. *)
Theorem classify_material_priority (material_name : cell) (ruleset : pyval) :
  valid_ruleset ruleset = true ->
  exists result : pyval * pyval,
    classify_material material_name ruleset = Ok result /\
    decision (labels_of ruleset) (exact_of ruleset)
      (tier_of ruleset (lit "haram_contains"))
      (tier_of ruleset (lit "review_contains"))
      (tier_of ruleset (lit "halal_contains"))
      (normalize (name_text material_name)) result /\
    forall other : pyval * pyval,
      decision (labels_of ruleset) (exact_of ruleset)
        (tier_of ruleset (lit "haram_contains"))
        (tier_of ruleset (lit "review_contains"))
        (tier_of ruleset (lit "halal_contains"))
        (normalize (name_text material_name)) other ->
      other = result.
Proof.
  intros V. eexists. split; [apply classify_material_decide, V|].
  split; [apply decide_decision | apply decision_decide].
Qed.

Lemma valid_ruleset_parts (ruleset : pyval) :
  valid_ruleset ruleset = true ->
  forallb (fun kv => is_str (snd kv)) (labels_of ruleset) = true /\
  has_key (lit "haram") (labels_of ruleset) = true /\
  has_key (lit "review") (labels_of ruleset) = true /\
  has_key (lit "halal") (labels_of ruleset) = true /\
  forallb (fun kv => valid_override (labels_of ruleset) (snd kv))
    (exact_of ruleset) = true.
Proof.
  intros V. destruct ruleset as [ | | | | | |d]; try discriminate.
  unfold valid_ruleset in V. unfold labels_of, exact_of. revert V.
  destruct (dict_lookup (lit "status_labels") d) as [[ | | | | | |labels]|];
    try discriminate.
  destruct (dict_lookup (lit "rules") d) as [[ | | | | | |rules]|];
    try discriminate.
  intros V. repeat (apply andb_prop in V; destruct V as [V ?]).
  repeat split; try assumption.
  unfold valid_overrides in *.
  destruct (dict_lookup (lit "overrides") d) as [[ | | | | | |overrides]|];
    try discriminate; try reflexivity.
  destruct (dict_lookup (lit "exact") overrides) as [[ | | | | | |exact]|];
    try discriminate; try reflexivity. assumption.
Qed.

Lemma dict_lookup_in (key : str) (d : list (str * pyval)) (v : pyval) :
  dict_lookup key d = Some v -> exists k, In (k, v) d.
Proof.
  induction d as [|[k' v'] d IH]; simpl; [discriminate|].
  destruct (str_eqb k' key).
  - intros E. injection E as ->. exists k'. left. reflexivity.
  - intros E. destruct (IH E) as [k Hk]. exists k. right. exact Hk.
Qed.

Lemma label_is_str (labels : list (str * pyval)) (key : str) :
  forallb (fun kv => is_str (snd kv)) labels = true ->
  has_key key labels = true ->
  exists s, label labels key = PyStr s.
Proof.
  intros A K. unfold label, has_key in *.
  destruct (dict_lookup key labels) as [v|] eqn:E; [|discriminate].
  destruct (dict_lookup_in E) as [k Hk].
  rewrite forallb_forall in A. specialize (A _ Hk). simpl in A.
  destruct v; try discriminate. eexists. reflexivity.
Qed.

(** C9: on a valid ruleset the two fields of the result are both absent or
    both strings. *)
Theorem classify_material_both_or_neither (material_name : cell) (ruleset : pyval) :
  valid_ruleset ruleset = true ->
  exists status reason : pyval,
    classify_material material_name ruleset = Ok (status, reason) /\
    ((status = PyNone /\ reason = PyNone) \/
     (exists s r, status = PyStr s /\ reason = PyStr r)).
Proof.
  intros V. rewrite (classify_material_decide material_name V).
  destruct (valid_ruleset_parts V) as [L [Kh [Kr [Kl X]]]].
  unfold decide.
  destruct (find _ (exact_of ruleset)) as [[key value]|] eqn:Fx.
  { apply find_some in Fx. destruct Fx as [Fx _].
    rewrite forallb_forall in X. specialize (X _ Fx). cbn [snd] in X.
    unfold valid_override in X. destruct value as [ | | | | | |fields]; try discriminate.
    apply andb_prop in X. destruct X as [Xs Xr].
    unfold override_result, override_status, override_reason. cbn [snd].
    destruct (dict_lookup (lit "status") fields) as [[ | | | |status| | ]|];
      try discriminate.
    destruct (label_is_str L Xs) as [s Es]. rewrite Es.
    destruct (dict_lookup (lit "reason") fields) as [[ | | | |reason| | ]|];
      try discriminate; do 2 eexists; (split; [reflexivity|]); right;
      do 2 eexists; split; reflexivity. }
  destruct (label_is_str L Kh) as [sh Eh].
  destruct (label_is_str L Kr) as [sr Er].
  destruct (label_is_str L Kl) as [sl El].
  unfold keyword_result. rewrite Eh, Er, El.
  repeat match goal with |- context [find ?P ?l] => destruct (find P l) end.
  all: do 2 eexists; (split; [reflexivity|]).
  all: try (left; split; reflexivity).
  all: right; do 2 eexists; split; reflexivity.
Qed.

(** ** load_rules and run *)

Lemma classify_material_missing_key (d : list (str * pyval)) (key : str)
  (name : cell) :
  missing_key d = Some key ->
  classify_material name (PyDict d) = Raise (KeyError (PyStr key)).
Proof.
  unfold missing_key, classify_material. cbn [py_getitem].
  destruct (dict_lookup (lit "status_labels") d).
  - destruct (dict_lookup (lit "rules") d); [discriminate|].
    intros E. injection E as <-. reflexivity.
  - intros E. injection E as <-. reflexivity.
Qed.

Lemma rows_loop_missing_key (d : list (str * pyval)) (key : str)
  (overwrite : bool) (rows : list row) (n : nat) :
  missing_key d = Some key ->
  rows_loop string_cell (PyDict d) overwrite rows n =
  if some_eligible overwrite rows then Raise (KeyError (PyStr key))
  else Ok (rows, n).
Proof.
  intros M. revert n. induction rows as [|r rest IH]; intros n; [reflexivity|].
  cbn [rows_loop some_eligible existsb].
  destruct (should_update (halal_status r) overwrite); cbn [negb orb].
  - rewrite (classify_material_missing_key _ M). reflexivity.
  - rewrite IH. fold (some_eligible overwrite rest).
    destruct (some_eligible overwrite rest); reflexivity.
Qed.

(** C5, as the code has it.  load_rules returns what the decoder returns for
    the text without its comments: it fails when that text is not valid JSON,
    and then a run ends there, before any row is looked at and with nothing
    written; it does not fail for any other reason, and it does not look for
    [status_labels] or [rules].  When one of them is absent every call of
    classify_material raises the KeyError of the first missing key, so a run
    ends at the first row that is eligible for an update, again with nothing
    written, and a run with no such row completes. *)
Theorem load_rules_configuration_errors (raw_text : str) :
  exists clean_text : str,
    strip_json_comments raw_text = Ok clean_text /\
    load_rules loads raw_text = loads clean_text /\
    (forall (e : exn) (has_material_name : bool) (rows : list row)
            (overwrite dry_run : bool),
       loads clean_text = Raise e ->
       run loads string_cell has_material_name rows raw_text overwrite dry_run =
       Raise e) /\
    (forall (d : list (str * pyval)) (key : str),
       loads clean_text = Ok (PyDict d) ->
       missing_key d = Some key ->
       (forall name : cell,
          classify_material name (PyDict d) = Raise (KeyError (PyStr key))) /\
       (forall (rows : list row) (overwrite dry_run : bool),
          run loads string_cell true rows raw_text overwrite dry_run =
          if some_eligible overwrite rows then Raise (KeyError (PyStr key))
          else Ok {| final_rows := rows; updated := 0;
                     written := negb dry_run |})).
Proof.
  exists (scan Normal raw_text).
  assert (L : load_rules loads raw_text = loads (scan Normal raw_text)).
  { unfold load_rules. rewrite strip_json_comments_scan. reflexivity. }
  split; [apply strip_json_comments_scan|]. split; [exact L|]. split.
  - intros e has_material_name rows overwrite dry_run E.
    unfold run. rewrite L, E. reflexivity.
  - intros d key E M. split.
    + intros name. apply classify_material_missing_key, M.
    + intros rows overwrite dry_run. unfold run. rewrite L, E. cbn [bind negb].
      rewrite (rows_loop_missing_key _ _ _ M).
      destruct (some_eligible overwrite rows); reflexivity.
Qed.

(** ** strip_json_comments: comments, one at a time *)

Lemma scan_line (c : char) (r : str) :
  scan LineComment (c :: r) =
  if is_newline c then c :: scan Normal r else scan LineComment r.
Proof. unfold scan. cbn [kept]. destruct (is_newline c); reflexivity. Qed.

Lemma scan_nil (m : mode) : scan m [] = [].
Proof. destruct m; reflexivity. Qed.

(** A character that is kept and is no slash comes first in the output. *)
Lemma scan_normal_head (d : char) (r : str) :
  (d =? SLASH)%N = false -> scan Normal (d :: r) = d :: tl (scan Normal (d :: r)).
Proof.
  intros D. destruct (d =? QUOTE)%N eqn:Q.
  - rewrite (scan_normal_quote _ Q). reflexivity.
  - rewrite scan_normal_copy; try assumption; try (rewrite D; reflexivity).
    reflexivity.
Qed.

Lemma out_mode_string_next (escaped : bool) (c : char) :
  out_mode (string_next escaped c) = string_next escaped c.
Proof.
  unfold string_next. destruct escaped; [reflexivity|].
  destruct (c =? BACKSLASH)%N; [reflexivity|].
  destruct (c =? QUOTE)%N; reflexivity.
Qed.

Lemma no_comment_single (m : mode) (c : char) :
  no_comment_outside_strings m [c] = true.
Proof.
  destruct m; cbn; try (destruct (c =? QUOTE)%N; [reflexivity|]);
    rewrite ?andb_false_r; reflexivity.
Qed.

Lemma no_comment_plain (c : char) (out : str) :
  (c =? QUOTE)%N = false -> (c =? SLASH)%N = false ->
  no_comment_outside_strings Normal (c :: out) =
  no_comment_outside_strings Normal out.
Proof. intros Q S. cbn [no_comment_outside_strings]. rewrite Q, S. reflexivity. Qed.

(** What the scanner gives back has no comment opener outside its strings. *)
Lemma scan_output_comment_free (s : str) :
  forall m, no_comment_outside_strings (out_mode m) (scan m s) = true.
Proof.
  induction s as [|c|c d r IHr IHd] using str_pair_ind; intros m.
  - rewrite scan_nil. reflexivity.
  - destruct m.
    + rewrite scan_normal_single. apply no_comment_single.
    + rewrite scan_string, scan_nil. apply no_comment_single.
    + rewrite scan_line, scan_nil. destruct (is_newline c);
        [apply no_comment_single | reflexivity].
    + apply no_comment_single.
  - destruct m; cbn [out_mode].
    + destruct (c =? QUOTE)%N eqn:Q.
      { rewrite (scan_normal_quote _ Q). cbn [no_comment_outside_strings].
        rewrite Q. apply (IHd (InString false)). }
      destruct ((c =? SLASH)%N && (d =? SLASH)%N) eqn:LC.
      { rewrite (scan_normal_line _ Q LC). apply (IHr LineComment). }
      destruct ((c =? SLASH)%N && (d =? STAR)%N) eqn:BC.
      { rewrite (scan_normal_block _ Q LC BC). apply (IHr BlockComment). }
      rewrite scan_normal_copy by assumption.
      cbn [no_comment_outside_strings]. rewrite Q.
      pose proof (IHd Normal) as Hd. cbn [out_mode] in Hd.
      rewrite Hd, andb_true_r.
      destruct (c =? SLASH)%N eqn:S; [|reflexivity].
      cbn [andb] in LC, BC. cbn [andb].
      rewrite (scan_normal_head _ LC). cbn [hd_error nxt_is].
      rewrite LC, BC. reflexivity.
    + rewrite scan_string. cbn [no_comment_outside_strings].
      pose proof (IHd (string_next escaped c)) as Hd.
      rewrite out_mode_string_next in Hd. exact Hd.
    + rewrite scan_line. destruct (is_newline c) eqn:NL; [|apply (IHd LineComment)].
      destruct (is_newline_plain NL) as [Q S].
      rewrite (no_comment_plain _ Q S). apply (IHd Normal).
    + destruct ((c =? STAR)%N && (d =? SLASH)%N) eqn:E.
      * apply andb_prop in E. destruct E as [E1 E2].
        apply N.eqb_eq in E1, E2. subst c d.
        rewrite scan_block_close. apply (IHr Normal).
      * rewrite (scan_block_skip _ E). apply (IHd BlockComment).
Qed.

(** X1: what strip_json_comments returns has no [//] and no [/*] outside its
    strings, whatever the input is. *)
Theorem strip_json_comments_output_comment_free (raw_text : str) :
  exists out : str,
    strip_json_comments raw_text = Ok out /\ comment_free out = true.
Proof.
  exists (scan Normal raw_text). split; [apply strip_json_comments_scan|].
  apply (scan_output_comment_free raw_text Normal).
Qed.

(** X2: strip_json_comments is idempotent. *)
Theorem strip_json_comments_idempotent (raw_text : str) :
  exists out : str,
    strip_json_comments raw_text = Ok out /\ strip_json_comments out = Ok out.
Proof.
  exists (scan Normal raw_text). split; [apply strip_json_comments_scan|].
  rewrite strip_json_comments_scan. f_equal.
  apply scan_comment_free; [left; reflexivity|].
  apply (scan_output_comment_free raw_text Normal).
Qed.

Lemma string_next_mode (escaped : bool) (c : char) :
  string_next escaped c = Normal \/ exists e, string_next escaped c = InString e.
Proof.
  unfold string_next. destruct escaped; [right; eexists; reflexivity|].
  destruct (c =? BACKSLASH)%N; [right; eexists; reflexivity|].
  destruct (c =? QUOTE)%N; [left | right; eexists]; reflexivity.
Qed.

(** Text without comments is copied, and what follows it is read in the mode
    the text ends in. *)
Lemma scan_prefix (pre : str) :
  forall m post,
    (m = Normal \/ exists e, m = InString e) ->
    no_comment_outside_strings m pre = true ->
    ends_with_slash pre = false ->
    scan m (pre ++ post) = pre ++ scan (string_mode_after m pre) post.
Proof.
  induction pre as [|c p IH]; intros m post Hm H E; [reflexivity|].
  assert (Ep : ends_with_slash p = false).
  { destruct p as [|d p]; [reflexivity|]. rewrite <- E. reflexivity. }
  cbn [app]. destruct Hm as [->|[e ->]];
    cbn [no_comment_outside_strings string_mode_after] in H |- *.
  - destruct (c =? QUOTE)%N eqn:Q.
    + rewrite (scan_normal_quote _ Q). f_equal.
      apply IH; [right; eexists; reflexivity | exact H | exact Ep].
    + apply andb_prop in H. destruct H as [J H]. apply negb_true_iff in J.
      rewrite scan_normal_copy; [f_equal; apply IH; [left; reflexivity | exact H | exact Ep]
                                | exact Q | |].
      all: destruct (c =? SLASH)%N eqn:S; [|reflexivity]; cbn [andb] in J |- *.
      all: destruct p as [|d p];
        [unfold ends_with_slash in E; cbn in E; rewrite E in S; discriminate|].
      all: cbn [app hd_error] in J |- *; apply orb_false_elim in J; apply J.
  - rewrite scan_string. f_equal.
    apply IH; [apply string_next_mode | exact H | exact Ep].
Qed.

Lemma strip_prefix (pre post : str) :
  comment_free pre = true ->
  string_mode_after Normal pre = Normal ->
  ends_with_slash pre = false ->
  strip_json_comments (pre ++ post) = Ok (pre ++ scan Normal post).
Proof.
  intros C M E. rewrite strip_json_comments_scan. f_equal.
  rewrite (scan_prefix (pre := pre) post (or_introl eq_refl) C E), M. reflexivity.
Qed.

(** X3: text without comments, with its strings closed and no slash at its
    end, is returned as it is, followed by what strip_json_comments returns
    for the rest of the input. *)
Theorem strip_json_comments_after_plain_text (pre post : str) :
  comment_free pre = true ->
  string_mode_after Normal pre = Normal ->
  ends_with_slash pre = false ->
  exists out : str,
    strip_json_comments post = Ok out /\
    strip_json_comments (pre ++ post) = Ok (pre ++ out).
Proof.
  intros C M E. exists (scan Normal post).
  split; [apply strip_json_comments_scan | apply strip_prefix; assumption].
Qed.

Lemma scan_line_comment (body rest : str) :
  no_line_break body = true -> at_line_break rest = true ->
  scan LineComment (body ++ rest) = scan Normal rest.
Proof.
  intros B R. induction body as [|c body IH].
  - destruct rest as [|c rest]; [reflexivity|]. cbn [app at_line_break] in *.
    rewrite scan_line, R. symmetry. apply scan_normal_newline, R.
  - cbn [no_line_break forallb] in B. apply andb_prop in B. destruct B as [Bc B].
    apply negb_true_iff in Bc. cbn [app]. rewrite scan_line, Bc. apply IH, B.
Qed.

(** X4: a line comment after such text is removed from its [//] up to the
    next line break, which is kept, or up to the end of the input. *)
Theorem strip_json_comments_line_comment (pre body rest : str) :
  comment_free pre = true ->
  string_mode_after Normal pre = Normal ->
  ends_with_slash pre = false ->
  no_line_break body = true ->
  at_line_break rest = true ->
  exists out : str,
    strip_json_comments rest = Ok out /\
    strip_json_comments (pre ++ SLASH :: SLASH :: body ++ rest) = Ok (pre ++ out).
Proof.
  intros C M E B R. exists (scan Normal rest).
  split; [apply strip_json_comments_scan|].
  rewrite (strip_prefix _ C M E). do 2 f_equal.
  rewrite scan_normal_line by reflexivity. apply scan_line_comment; assumption.
Qed.

Lemma scan_block_comment (body rest : str) :
  has_block_end body = false ->
  scan BlockComment (body ++ STAR :: SLASH :: rest) = scan Normal rest.
Proof.
  induction body as [|a body IH]; intros B; [apply scan_block_close|].
  cbn [has_block_end] in B. apply orb_false_elim in B. destruct B as [B1 B2].
  cbn [app]. destruct body as [|d body].
  - cbn [app]. rewrite scan_block_skip by apply andb_false_r.
    apply scan_block_close.
  - cbn [hd_error nxt_is] in B1. cbn [app]. rewrite scan_block_skip by exact B1.
    apply (IH B2).
Qed.

(** X5: a block comment after such text is removed from its [/*] through the
    first [*/] that follows; block comments do not nest. *)
Theorem strip_json_comments_block_comment (pre body rest : str) :
  comment_free pre = true ->
  string_mode_after Normal pre = Normal ->
  ends_with_slash pre = false ->
  has_block_end body = false ->
  exists out : str,
    strip_json_comments rest = Ok out /\
    strip_json_comments (pre ++ SLASH :: STAR :: body ++ STAR :: SLASH :: rest) =
    Ok (pre ++ out).
Proof.
  intros C M E B. exists (scan Normal rest).
  split; [apply strip_json_comments_scan|].
  rewrite (strip_prefix _ C M E). do 2 f_equal.
  rewrite scan_normal_block by reflexivity. apply scan_block_comment, B.
Qed.

(** X6: a rules file without comments is loaded as the decoder reads it. *)
Theorem load_rules_plain_json (raw_text : str) :
  comment_free raw_text = true ->
  load_rules loads raw_text = loads raw_text.
Proof.
  intros C. unfold load_rules. rewrite strip_json_comments_scan. cbn [bind].
  f_equal. apply scan_comment_free; [left; reflexivity | exact C].
Qed.

(** ** normalize: whitespace *)

Lemma lstrip_app_space (lead x : str) :
  forallb isspace lead = true -> lstrip (lead ++ x) = lstrip x.
Proof.
  induction lead as [|c lead IH]; intros H; [reflexivity|].
  cbn [forallb] in H. apply andb_prop in H. destruct H as [Hc H].
  cbn [app lstrip]. rewrite Hc. apply IH, H.
Qed.

(** [s.strip()] is the one way to cut a text into whitespace, a core that
    neither starts nor ends with whitespace, and whitespace. *)
Lemma py_strip_unique (lead core trail : str) :
  forallb isspace lead = true -> forallb isspace trail = true ->
  starts_with_space core = false -> ends_with_space core = false ->
  py_strip (lead ++ core ++ trail) = core.
Proof.
  intros L T S E. unfold py_strip. rewrite (lstrip_app_space _ L).
  destruct core as [|c core].
  - cbn [app]. apply lstrip_empty in T. rewrite T. reflexivity.
  - cbn [starts_with_space] in S. cbn [app lstrip]. rewrite S.
    unfold rstrip. change (c :: core ++ trail) with ((c :: core) ++ trail).
    rewrite rev_app_distr, lstrip_app_space by (rewrite forallb_rev; exact T).
    rewrite lstrip_fixed by exact E. apply rev_involutive.
Qed.

Lemma py_strip_padding (lead s trail : str) :
  forallb isspace lead = true -> forallb isspace trail = true ->
  py_strip (lead ++ s ++ trail) = py_strip s.
Proof.
  intros L T. destruct (py_strip_spec s) as [l [t [E [Fl [Ft [Hs He]]]]]].
  rewrite E at 1.
  replace (lead ++ (l ++ py_strip s ++ t) ++ trail)
    with ((lead ++ l) ++ py_strip s ++ (t ++ trail))
    by (rewrite <- !app_assoc; reflexivity).
  apply py_strip_unique; try assumption; rewrite forallb_app.
  - rewrite L, Fl. reflexivity.
  - rewrite Ft, T. reflexivity.
Qed.

Lemma normalize_padded (lead s trail : str) :
  forallb isspace lead = true -> forallb isspace trail = true ->
  normalize (lead ++ s ++ trail : str) = normalize s.
Proof.
  intros L T. unfold normalize. cbn [as_str PyObject_str].
  change (as_str (lead ++ s ++ trail)) with (Some (lead ++ s ++ trail)).
  change (as_str s) with (Some s). cbv beta iota.
  rewrite (py_strip_padding _ L T). reflexivity.
Qed.

(** X7: whitespace before and after a text does not change what normalize
    returns for it. *)
Theorem normalize_padding (lead s trail : str) :
  forallb isspace lead = true -> forallb isspace trail = true ->
  normalize (lead ++ s ++ trail : str) = normalize s.
Proof. intros L T. exact (normalize_padded s L T). Qed.

Lemma sigma_free_app (x y : str) :
  sigma_free (x ++ y) = sigma_free x && sigma_free y.
Proof. apply forallb_app. Qed.

Lemma lower_from_sigma_free (s before : str) :
  sigma_free s = true -> lower_from before s = flat_map tolower_full s.
Proof.
  revert before. induction s as [|c r IH]; intros before H; [reflexivity|].
  cbn [sigma_free forallb] in H. apply andb_prop in H. destruct H as [Hc H].
  apply negb_true_iff in Hc. cbn [lower_from flat_map]. unfold lower_ucs4.
  rewrite Hc. f_equal. apply IH, H.
Qed.

Lemma filter_flat_map_space (l : str) :
  whitespace_is_caseless UCD -> forallb isspace l = true ->
  filter nonspace (flat_map tolower_full l) = [].
Proof.
  intros W. induction l as [|c l IH]; intros H; [reflexivity|].
  cbn [forallb] in H. apply andb_prop in H. destruct H as [Hc H].
  cbn [flat_map]. rewrite filter_app, (IH H), app_nil_r.
  specialize (W c Hc). induction (tolower_full c) as [|d t IHt]; [reflexivity|].
  cbn [forallb] in W. apply andb_prop in W. destruct W as [Wd W].
  cbn [filter]. rewrite (nonspace_false Wd). apply IHt, W.
Qed.

(** Without a capital sigma, normalize works one character at a time. *)
Lemma normalize_sigma_free (s : str) :
  whitespace_is_caseless UCD -> sigma_free s = true ->
  normalize s = filter nonspace (flat_map tolower_full s).
Proof.
  intros W F. rewrite normalize_str.
  destruct (py_strip_spec s) as [l [t [E [Fl [Ft _]]]]].
  assert (Fc : sigma_free (py_strip s) = true).
  { rewrite E in F. rewrite !sigma_free_app in F.
    apply andb_prop in F. destruct F as [_ F]. apply andb_prop in F. apply F. }
  unfold py_lower. rewrite (lower_from_sigma_free [] Fc).
  rewrite E at 2. rewrite !flat_map_app, !filter_app.
  rewrite (filter_flat_map_space W Fl), (filter_flat_map_space W Ft), app_nil_r.
  reflexivity.
Qed.

Lemma space_sigma_free (ws : str) : forallb isspace ws = true -> sigma_free ws = true.
Proof.
  induction ws as [|c ws IH]; intros H; [reflexivity|].
  cbn [forallb] in H. apply andb_prop in H. destruct H as [Hc H].
  cbn [sigma_free forallb]. fold (sigma_free ws). rewrite (IH H), andb_true_r.
  destruct (N.eqb_spec c CAPITAL_SIGMA) as [->|]; [discriminate | reflexivity].
Qed.

(** X8: for a text without the capital sigma, whitespace anywhere in it does
    not change what normalize returns, given that whitespace has no case in
    the Unicode tables. *)
Theorem normalize_ignores_whitespace (a ws b : str) :
  whitespace_is_caseless UCD ->
  sigma_free a = true -> sigma_free b = true -> forallb isspace ws = true ->
  normalize (a ++ ws ++ b : str) = normalize (a ++ b : str).
Proof.
  intros W Fa Fb S. pose proof (space_sigma_free S) as Fs.
  assert (Fab : sigma_free (a ++ b) = true)
    by (rewrite sigma_free_app, Fa, Fb; reflexivity).
  assert (Fawb : sigma_free (a ++ ws ++ b) = true)
    by (rewrite !sigma_free_app, Fa, Fb, Fs; reflexivity).
  rewrite (normalize_sigma_free W Fawb), (normalize_sigma_free W Fab).
  rewrite !flat_map_app, !filter_app, (filter_flat_map_space W S). reflexivity.
Qed.

(** ** keyword_match: edges *)

Lemma normalize_blank (keyword : pyval) :
  blank_keyword keyword = true -> normalize keyword = [].
Proof.
  unfold normalize. destruct keyword; try reflexivity. cbn [blank_keyword].
  intros B. change (as_str (PyStr s)) with (Some s). cbv beta iota.
  apply py_strip_empty in B. rewrite B. reflexivity.
Qed.

(** X9: a keyword that is not a string, or that is empty or has whitespace
    only, matches no text. *)
Theorem keyword_match_blank_keyword (normalized_text : str) (keyword : pyval) :
  blank_keyword keyword = true ->
  keyword_match normalized_text keyword = false.
Proof.
  intros B. unfold keyword_match. rewrite (normalize_blank B). reflexivity.
Qed.

Lemma keyword_match_empty (keyword : pyval) : keyword_match [] keyword = false.
Proof.
  unfold keyword_match. destruct (normalize keyword) as [|c [|d k]]; reflexivity.
Qed.

(** X10: a keyword of two characters or more that matches a text matches
    every text that contains it. *)
Theorem keyword_match_contained (pre normalized_text post : str) (keyword : pyval) :
  2 <= length (normalize keyword) ->
  keyword_match normalized_text keyword = true ->
  keyword_match (pre ++ normalized_text ++ post) keyword = true.
Proof.
  unfold keyword_match. destruct (normalize keyword) as [|c [|d k]]; cbn [length];
    try lia. intros _. cbn [Nat.eqb]. rewrite !str_in_spec.
  intros [p [q ->]]. exists (pre ++ p), (q ++ post).
  rewrite <- !app_assoc. reflexivity.
Qed.

(** X11: a keyword matches the text that is its own normalized form, unless
    that is empty. *)
Theorem keyword_match_itself (keyword : pyval) :
  normalize keyword <> [] ->
  keyword_match (normalize keyword) keyword = true.
Proof.
  unfold keyword_match. destruct (normalize keyword) as [|c [|d k]] eqn:E.
  - intros H. contradiction H. reflexivity.
  - intros _. apply str_eqb_refl.
  - intros _. cbn [length Nat.eqb]. apply str_in_spec. exists [], [].
    rewrite app_nil_r. reflexivity.
Qed.

(** ** classify_material: names, and rulesets that are not valid *)

(** X12: whitespace around a name does not change its classification, and a
    name of whitespace only is classified like a missing one; this holds for
    every ruleset, also where the classification is an exception. *)
Theorem classify_material_padding (lead s trail : str) (ruleset : pyval) :
  forallb isspace lead = true -> forallb isspace trail = true ->
  classify_material (CStr (lead ++ s ++ trail)) ruleset =
  classify_material (CStr s) ruleset /\
  classify_material (CStr lead) ruleset = classify_material CNA ruleset.
Proof.
  intros L T. unfold classify_material. cbn [as_str PyObject_cell].
  change (as_str (CStr (lead ++ s ++ trail))) with (Some (lead ++ s ++ trail)).
  change (as_str (CStr s)) with (Some s).
  change (as_str (CStr lead)) with (Some lead).
  change (as_str CNA) with (@None str). cbv beta iota zeta.
  rewrite (normalize_padded s L T).
  pose proof (normalize_padded [] L (eq_refl : forallb isspace [] = true)) as E.
  cbn [app] in E. rewrite app_nil_r in E. rewrite E.
  split; reflexivity.
Qed.

Lemma find_none_forallb {A} (P : A -> bool) (l : list A) :
  forallb (fun a => negb (P a)) l = true -> find P l = None.
Proof.
  intros H. symmetry. apply first_match_find. apply first_match_none, H.
Qed.

Lemma find_keyword_empty (keywords : list pyval) :
  find (keyword_match []) keywords = None.
Proof.
  apply find_none_forallb. induction keywords as [|k l IH]; [reflexivity|].
  cbn [forallb]. rewrite keyword_match_empty, IH. reflexivity.
Qed.

(** X13: on a valid ruleset, a name whose normalized form is empty (a missing
    name, a name that is no string, a blank name) gets no status from any
    keyword: unless an override applies to the empty name, both fields of the
    result are absent. *)
Theorem classify_material_empty_name (material_name : cell) (ruleset : pyval) :
  valid_ruleset ruleset = true ->
  normalize (name_text material_name) = [] ->
  forallb (fun kv => negb (override_applies [] kv)) (exact_of ruleset) = true ->
  classify_material material_name ruleset = Ok (PyNone, PyNone).
Proof.
  intros V E X. rewrite (classify_material_decide material_name V), E.
  unfold decide. rewrite (find_none_forallb X), !find_keyword_empty. reflexivity.
Qed.

(** The function up to its loops, for a configuration that has the two keys
    and overrides that can be run through. *)
Lemma classify_material_loops (material_name : cell) (d : list (str * pyval))
  (status_labels rules : pyval) (items : list (str * pyval)) :
  dict_lookup (lit "status_labels") d = Some status_labels ->
  dict_lookup (lit "rules") d = Some rules ->
  exact_items d = Some items ->
  classify_material material_name (PyDict d) =
  let normalized := normalize (name_text material_name) in
  or_else (overrides_loop status_labels normalized items)
  (or_else (tier status_labels rules normalized
              (lit "haram_contains") (lit "haram") HARAM_REASON)
  (or_else (tier status_labels rules normalized
              (lit "review_contains") (lit "review") REVIEW_REASON)
  (or_else (tier status_labels rules normalized
              (lit "halal_contains") (lit "halal") HALAL_REASON)
  (Ok (PyNone, PyNone))))).
Proof.
  intros L R X. unfold classify_material. cbn [py_getitem]. rewrite L, R.
  cbn [bind]. unfold exact_items in X.
  replace (match as_str material_name with Some s => s | None => [] end)
    with (name_text material_name) by (destruct material_name; reflexivity).
  cbn [py_get].
  destruct (dict_lookup (lit "overrides") d) as [[ | | | | | |overrides]|];
    try discriminate; cbn [bind py_get].
  - destruct (dict_lookup (lit "exact") overrides) as [[ | | | | | |exact]|];
      try discriminate; injection X as <-; reflexivity.
  - injection X as <-. reflexivity.
Qed.

Lemma overrides_loop_find (status_labels : pyval) (normalized : str)
  (items : list (str * pyval)) :
  overrides_loop status_labels normalized items =
  match find (override_applies normalized) items with
  | None => Ok None
  | Some (key, value) =>
      status_key <- py_getitem value (PyStr (lit "status")) ;;
      reason <- py_get value (lit "reason") (PyStr OVERRIDE_REASON) ;;
      label <- py_getitem status_labels status_key ;;
      Ok (Some (label, reason))
  end.
Proof.
  induction items as [|[key value] rest IH]; [reflexivity|].
  cbn [overrides_loop find]. unfold override_applies at 1. cbn [fst].
  destruct (str_eqb (normalize key) normalized); [reflexivity | exact IH].
Qed.

Lemma keywords_loop_find (status_labels : pyval) (normalized : str)
  (status reason : str) (keywords : list pyval) :
  keywords_loop status_labels normalized status reason keywords =
  match find (keyword_match normalized) keywords with
  | None => Ok None
  | Some keyword =>
      label <- py_getitem status_labels (PyStr status) ;;
      Ok (Some (label, PyStr (reason ++ py_format keyword)))
  end.
Proof.
  induction keywords as [|keyword rest IH]; [reflexivity|].
  cbn [keywords_loop find].
  destruct (keyword_match normalized keyword); [reflexivity | exact IH].
Qed.

(** X14: an exact override that applies decides alone.  When its status is a
    key of [status_labels] the result is that label and the reason of the
    override; when it is not, the call raises the KeyError of that status.
    [rules] has to be there but is not looked into, and of the other
    overrides no more than their keys is read. *)
Theorem classify_material_override_decides (material_name : cell)
  (d labels items fields : list (str * pyval)) (rules : pyval)
  (key status : str) :
  dict_lookup (lit "status_labels") d = Some (PyDict labels) ->
  dict_lookup (lit "rules") d = Some rules ->
  exact_items d = Some items ->
  find (override_applies (normalize (name_text material_name))) items =
    Some (key, PyDict fields) ->
  dict_lookup (lit "status") fields = Some (PyStr status) ->
  classify_material material_name (PyDict d) =
  match dict_lookup status labels with
  | Some l => Ok (l, override_reason (PyDict fields))
  | None => Raise (KeyError (PyStr status))
  end.
Proof.
  intros L R X F S. rewrite (classify_material_loops material_name L R X).
  cbv zeta. unfold or_else at 1. rewrite overrides_loop_find, F.
  cbn [py_getitem py_get override_reason]. rewrite S. cbn [bind].
  destruct (dict_lookup (lit "reason") fields); cbn [bind];
    destruct (dict_lookup status labels); reflexivity.
Qed.

(** X15: when no override applies and a haram keyword matches, the haram
    tier decides.  When [haram] is a key of [status_labels] the result is its
    label and the reason with the first keyword that matches, as it is
    written in the rules; when it is not, the call raises KeyError.  The
    other two tiers and their labels are not read. *)
Theorem classify_material_haram_decides (material_name : cell)
  (d labels rules items : list (str * pyval)) (keywords : list pyval)
  (keyword : pyval) :
  dict_lookup (lit "status_labels") d = Some (PyDict labels) ->
  dict_lookup (lit "rules") d = Some (PyDict rules) ->
  exact_items d = Some items ->
  find (override_applies (normalize (name_text material_name))) items = None ->
  dict_lookup (lit "haram_contains") rules = Some (PyList keywords) ->
  find (keyword_match (normalize (name_text material_name))) keywords =
    Some keyword ->
  classify_material material_name (PyDict d) =
  match dict_lookup (lit "haram") labels with
  | Some l => Ok (l, PyStr (HARAM_REASON ++ py_format keyword))
  | None => Raise (KeyError (PyStr (lit "haram")))
  end.
Proof.
  intros L R X F K M. rewrite (classify_material_loops material_name L R X).
  cbv zeta. unfold or_else at 1. rewrite overrides_loop_find, F. cbn [bind].
  unfold or_else at 1. unfold tier at 1. cbn [py_get]. rewrite K.
  cbn [bind py_iter]. rewrite keywords_loop_find, M. cbn [py_getitem].
  destruct (dict_lookup (lit "haram") labels); reflexivity.
Qed.

(** ** run: what the loop over the rows does *)

(** What the loop has done to a row [r] when it returns with [r'] in its
    place. *)
Lemma rows_loop_rows (ruleset : pyval) (overwrite : bool) (rows rows' : list row)
  (n k : nat) :
  rows_loop string_cell ruleset overwrite rows n = Ok (rows', k) ->
  k = (n + count_eligible overwrite rows)%nat /\
  Forall2 (fun r r' =>
    if should_update (halal_status r) overwrite then
      exists result,
        classify_material (material_name r) ruleset = Ok result /\
        assign string_cell (fst result) = Ok (halal_status r') /\
        assign string_cell (snd result) = Ok (reason r') /\
        material_name r' = material_name r
    else r' = r) rows rows'.
Proof.
  revert rows' n k. induction rows as [|r rest IH]; intros rows' n k.
  - cbn [rows_loop]. intros E. injection E as <- <-.
    split; [unfold count_eligible; cbn; lia | constructor].
  - cbn [rows_loop]. unfold count_eligible. cbn [filter].
    destruct (should_update (halal_status r) overwrite) eqn:U; cbn [negb].
    + destruct (classify_material (material_name r) ruleset) as [result|] eqn:C;
        cbn [bind]; [|discriminate].
      destruct (assign string_cell (fst result)) as [status|] eqn:As;
        cbn [bind]; [|discriminate].
      destruct (assign string_cell (snd result)) as [why|] eqn:Ar;
        cbn [bind]; [|discriminate].
      destruct (rows_loop string_cell ruleset overwrite rest (n + 1))
        as [[done m]|] eqn:R; cbn [bind fst snd]; [|discriminate].
      intros E. injection E as <- <-.
      destruct (IH _ _ _ R) as [Hk Hf]. unfold count_eligible in Hk.
      split; [cbn [length]; lia|].
      constructor; [|exact Hf]. rewrite U. exists result.
      cbn [halal_status reason material_name]. repeat split; assumption.
    + destruct (rows_loop string_cell ruleset overwrite rest n)
        as [[done m]|] eqn:R; cbn [bind fst snd]; [|discriminate].
      intros E. injection E as <- <-.
      destruct (IH _ _ _ R) as [Hk Hf]. unfold count_eligible in Hk.
      split; [exact Hk|].
      constructor; [|exact Hf]. rewrite U. reflexivity.
Qed.

Lemma run_returns (has_material_name : bool) (rows : list row) (rules_text : str)
  (overwrite dry_run : bool) (rep : report) :
  run loads string_cell has_material_name rows rules_text overwrite dry_run =
    Ok rep ->
  exists ruleset k,
    load_rules loads rules_text = Ok ruleset /\
    has_material_name = true /\
    rows_loop string_cell ruleset overwrite rows 0 = Ok (final_rows rep, k) /\
    updated rep = k /\ written rep = negb dry_run.
Proof.
  unfold run.
  destruct (load_rules loads rules_text) as [ruleset|]; cbn [bind]; [|discriminate].
  destruct has_material_name; cbn [negb]; [|discriminate].
  destruct (rows_loop string_cell ruleset overwrite rows 0) as [[done k]|] eqn:R;
    cbn [bind fst snd]; [|discriminate].
  intros E. injection E as <-. exists ruleset, k. cbn [final_rows updated written].
  repeat split; [exact R].
Qed.

(** X16: a run that returns has kept the rows of the data frame in number
    and order and has left every material name as it was; a row that is not
    eligible for an update is unchanged; the number of updates it reports is
    the number of eligible rows, whether or not a row's fields came out as
    they were; the column [material_name] was there; and the output is
    written exactly when the run is no dry run. *)
Theorem run_keeps_rows (has_material_name : bool) (rows : list row)
  (rules_text : str) (overwrite dry_run : bool) (rep : report) :
  run loads string_cell has_material_name rows rules_text overwrite dry_run =
    Ok rep ->
  has_material_name = true /\
  map material_name (final_rows rep) = map material_name rows /\
  (forall (i : nat) (r : row),
     nth_error rows i = Some r ->
     should_update (halal_status r) overwrite = false ->
     nth_error (final_rows rep) i = Some r) /\
  updated rep = count_eligible overwrite rows /\
  written rep = negb dry_run.
Proof.
  intros E. destruct (run_returns E) as [ruleset [k [_ [M [R [U W]]]]]].
  destruct (rows_loop_rows R) as [Hk Hf].
  split; [exact M|]. split; [|split; [|split; [lia | exact W]]].
  - clear R E Hk. induction Hf as [|r r' l l' H Hf IH]; [reflexivity|].
    cbn [map]. f_equal; [|exact IH].
    destruct (should_update (halal_status r) overwrite).
    + destruct H as [result [_ [_ [_ H]]]]. exact H.
    + rewrite H. reflexivity.
  - clear R E Hk. induction Hf as [|r r' l l' H Hf IH]; intros i r0 N S.
    + destruct i; discriminate.
    + destruct i as [|i]; cbn [nth_error] in *.
      * injection N as ->. rewrite S in H. rewrite H. reflexivity.
      * exact (IH i r0 N S).
Qed.

Lemma rows_loop_again (ruleset : pyval) (overwrite : bool) (rows rows' : list row)
  (n : nat) :
  Forall2 (fun r r' =>
    if should_update (halal_status r) overwrite then
      exists result,
        classify_material (material_name r) ruleset = Ok result /\
        assign string_cell (fst result) = Ok (halal_status r') /\
        assign string_cell (snd result) = Ok (reason r') /\
        material_name r' = material_name r
    else r' = r) rows rows' ->
  rows_loop string_cell ruleset overwrite rows' n =
    Ok (rows', (n + count_eligible overwrite rows')%nat) /\
  (count_eligible overwrite rows' <= count_eligible overwrite rows)%nat.
Proof.
  intros Hf. revert n. induction Hf as [|r r' l l' H Hf IH]; intros n.
  - split; [cbn; f_equal; f_equal; unfold count_eligible; cbn; lia | apply le_n].
  - cbn [rows_loop]. unfold count_eligible in *. cbn [filter].
    destruct (should_update (halal_status r') overwrite) eqn:U'; cbn [negb].
    + assert (should_update (halal_status r) overwrite = true) as U.
      { destruct (should_update (halal_status r) overwrite) eqn:U; [reflexivity|].
        rewrite H in U'. congruence. }
      rewrite U in H. destruct H as [result [C [As [Ar Nm]]]].
      rewrite Nm, C. cbn [bind]. rewrite As. cbn [bind]. rewrite Ar. cbn [bind].
      destruct (IH (n + 1)%nat) as [-> Hle]. rewrite U. cbn [bind fst snd length].
      split; [|lia]. rewrite <- Nm. destruct r'. cbn. f_equal. f_equal. lia.
    + destruct (IH n) as [-> Hle]. cbn [bind fst snd]. split; [reflexivity|].
      destruct (should_update (halal_status r) overwrite); cbn [length]; lia.
Qed.

(** X17: the loop is idempotent on the data frame.  When a run returns, a
    run with the same rules and the same switches on the rows it has produced
    returns these rows again, and it does not update more rows than the first
    one did. *)
Theorem run_again_changes_nothing (has_material_name : bool) (rows : list row)
  (rules_text : str) (overwrite dry_run : bool) (rep : report) :
  run loads string_cell has_material_name rows rules_text overwrite dry_run =
    Ok rep ->
  exists rep' : report,
    run loads string_cell has_material_name (final_rows rep) rules_text
      overwrite dry_run = Ok rep' /\
    final_rows rep' = final_rows rep /\
    (updated rep' <= updated rep)%nat.
Proof.
  intros E. destruct (run_returns E) as [ruleset [k [L [M [R [U W]]]]]].
  destruct (rows_loop_rows R) as [Hk Hf].
  destruct (rows_loop_again 0 Hf) as [R' Hle].
  unfold run. rewrite L, M. cbn [bind negb]. rewrite R'. cbn [bind fst snd].
  eexists. split; [reflexivity|]. cbn [final_rows updated].
  split; [reflexivity | lia].
Qed.

(** On a valid ruleset each field of the result is absent or a string. *)
Lemma classify_material_fields (material_name : cell) (ruleset : pyval) :
  valid_ruleset ruleset = true ->
  exists status why : pyval,
    classify_material material_name ruleset = Ok (status, why) /\
    (status = PyNone \/ exists s, status = PyStr s) /\
    (why = PyNone \/ exists r, why = PyStr r).
Proof.
  intros V. rewrite (classify_material_decide material_name V).
  destruct (valid_ruleset_parts V) as [L [Kh [Kr [Kl X]]]].
  unfold decide.
  destruct (find _ (exact_of ruleset)) as [[key value]|] eqn:Fx.
  { apply find_some in Fx. destruct Fx as [Fx _].
    rewrite forallb_forall in X. specialize (X _ Fx). cbn [snd] in X.
    unfold valid_override in X. destruct value as [ | | | | | |fields]; try discriminate.
    apply andb_prop in X. destruct X as [Xs Xr].
    unfold override_result, override_status, override_reason. cbn [snd].
    destruct (dict_lookup (lit "status") fields) as [[ | | | |status| | ]|];
      try discriminate.
    destruct (label_is_str L Xs) as [s Es]. rewrite Es.
    destruct (dict_lookup (lit "reason") fields) as [[ | | | |why| | ]|];
      try discriminate; do 2 eexists; (split; [reflexivity|]);
      split; right; eexists; reflexivity. }
  destruct (label_is_str L Kh) as [sh Eh].
  destruct (label_is_str L Kr) as [sr Er].
  destruct (label_is_str L Kl) as [sl El].
  unfold keyword_result. rewrite Eh, Er, El.
  repeat match goal with |- context [find ?P ?l] => destruct (find P l) end.
  all: do 2 eexists; (split; [reflexivity|]).
  all: try (split; left; reflexivity).
  all: split; right; eexists; reflexivity.
Qed.

Lemma assign_field (v : pyval) :
  (forall s : str, string_cell (PyStr s) = Ok (CStr s)) ->
  (v = PyNone \/ exists s, v = PyStr s) ->
  assign string_cell v = Ok (cell_of v).
Proof.
  intros T [->|[s ->]]; [reflexivity | exact (T s)].
Qed.

Lemma rows_loop_valid (ruleset : pyval) (overwrite : bool) (rows : list row)
  (n : nat) :
  valid_ruleset ruleset = true ->
  (forall s : str, string_cell (PyStr s) = Ok (CStr s)) ->
  rows_loop string_cell ruleset overwrite rows n =
  Ok (map (classified_row ruleset overwrite) rows,
      (n + count_eligible overwrite rows)%nat).
Proof.
  intros V T. revert n. induction rows as [|r rest IH]; intros n.
  - cbn. unfold count_eligible. cbn. do 2 f_equal. lia.
  - cbn [rows_loop map]. unfold classified_row at 1, count_eligible. cbn [filter].
    destruct (should_update (halal_status r) overwrite); cbn [negb].
    + destruct (classify_material_fields (material_name r) V)
        as [status [why [C [Fs Fr]]]].
      rewrite C. cbn [bind fst snd].
      rewrite (assign_field T Fs), (assign_field T Fr). cbn [bind].
      rewrite IH. cbn [bind fst snd length]. unfold count_eligible.
      do 2 f_equal. lia.
    + rewrite IH. reflexivity.
Qed.

(** X18: with rules that load as a valid ruleset, an input that has the
    column [material_name] and string columns that store a string as it is,
    a run never fails: every eligible row gets the two fields of the
    classification of its own name, [pd.NA] for an absent field, every other
    row stays as it is, and the run reports the number of eligible rows. *)
Theorem run_valid_ruleset (rows : list row) (rules_text : str)
  (ruleset : pyval) (overwrite dry_run : bool) :
  load_rules loads rules_text = Ok ruleset ->
  valid_ruleset ruleset = true ->
  (forall s : str, string_cell (PyStr s) = Ok (CStr s)) ->
  run loads string_cell true rows rules_text overwrite dry_run =
  Ok {| final_rows := map (classified_row ruleset overwrite) rows;
        updated := count_eligible overwrite rows;
        written := negb dry_run |}.
Proof.
  intros L V T. unfold run. rewrite L. cbn [bind negb].
  rewrite (rows_loop_valid overwrite rows 0 V T). reflexivity.
Qed.

End Proofs.

(** * Part IV: runs on concrete inputs *)

Local Open Scope nat_scope.

(** C4, at the text [/*x]: the block comment is never closed, all three
    characters belong to it, and the function returns [x]. *)
Theorem strip_json_comments_unterminated_block :
  has_block_end (lit "x") = false /\
  lexemes Normal (lit "/*x") = [CommentChar; CommentChar; CommentChar] /\
  strip_json_comments (lit "/*x") = Ok (lit "x").
Proof. repeat split. Qed.

Lemma strip_json_comments_preserves_strings_witness :
  comment_free sample_strings_only = true /\
  strip_json_comments sample_strings_only = Ok sample_strings_only.
Proof.
  split; [reflexivity|].
  apply (proj1 (strip_json_comments_preserves_strings sample_strings_only)).
  reflexivity.
Defined.

Local Open Scope N_scope.

Lemma latin_tables_stable : lowercase_is_stable latin_tables.
Proof.
  unfold lowercase_is_stable. cbn [tolower_full latin_tables].
  split; [|split; reflexivity].
  intros c d _. unfold latin_tolower, CAPITAL_SIGMA, SMALL_SIGMA.
  destruct (N.leb_spec 0x41 c); destruct (N.leb_spec c 0x5A); cbn [andb];
    try destruct (N.eqb_spec c 0x130); try destruct (N.eqb_spec c 0x3A3);
    cbn [In]; intros D;
    repeat match goal with H : _ \/ _ |- _ => destruct H end;
    try contradiction; subst; try (split; [reflexivity | discriminate]).
  all: split; [|lia].
  all: repeat match goal with
         | |- context [(?a <=? ?b)] => destruct (N.leb_spec a b)
         | |- context [(?a =? ?b)] => destruct (N.eqb_spec a b)
         end; cbn [andb]; try reflexivity; lia.
Qed.

Local Open Scope nat_scope.

(** C5 as it is stated fails at the configuration [{}]: it is valid JSON
    without [status_labels] and without [rules], and load_rules returns it.
    A run over a row that already has a status then completes and writes its
    output. *)
Lemma load_rules_accepts_missing_keys :
  load_rules json_loads (lit "{}") = Ok (PyDict []) /\
  dict_lookup (lit "status_labels") [] = None /\
  dict_lookup (lit "rules") [] = None /\
  run (UCD := latin_tables) json_loads string_cell_set true
    [ {| material_name := CStr (lit "water");
         halal_status := CStr (lit "HALAL");
         reason := CNA |} ]
    (lit "{}") false false =
  Ok {| final_rows := [ {| material_name := CStr (lit "water");
                           halal_status := CStr (lit "HALAL");
                           reason := CNA |} ];
        updated := 0; written := true |}.
Proof. repeat split. Qed.

#[local] Existing Instance latin_tables.

(** The comments of the sample rules file are removed, its strings are not
    touched, and the decoder reads what is left. *)
Example load_sample_rules :
  load_rules json_loads sample_rules_text =
  Ok (PyDict
        [ (lit "status_labels",
           PyDict [ (lit "halal", PyStr (lit "HALAL"));
                    (lit "haram", PyStr (lit "HARAM // forbidden"));
                    (lit "review", PyStr (lit "REVIEW")) ]);
          (lit "rules",
           PyDict [ (lit "haram_contains", PyList [PyStr (lit "pork")]);
                    (lit "halal_contains", PyList [PyStr (lit "water")]) ]) ]).
Proof. reflexivity. Qed.

Example strip_line_comment :
  strip_json_comments (lit "[1, // one" ++ [LF] ++ lit " 2]") =
  Ok (lit "[1, " ++ [LF] ++ lit " 2]").
Proof. reflexivity. Qed.

Example strip_block_comment :
  strip_json_comments (lit "[1, /* one * / */ 2]") = Ok (lit "[1,  2]").
Proof. reflexivity. Qed.

(** Unclosed block comments: nothing is left of [/*], and the last character
    is left of the others. *)
Example strip_unclosed_block_comments :
  strip_json_comments (lit "1 /*") = Ok (lit "1 ") /\
  strip_json_comments (lit "1 /*/") = Ok (lit "1 /") /\
  strip_json_comments (lit "1 /* two *") = Ok (lit "1 *") /\
  strip_json_comments (lit "1 /* two }") = Ok (lit "1 }").
Proof. repeat split. Qed.

(** A name with a haram and a halal keyword is haram. *)
Example classify_pork_in_water :
  classify_material (CStr (lit "Water, Pork Fat")) sample_ruleset =
  Ok (PyStr (lit "HARAM"), PyStr (HARAM_REASON ++ lit "pork")).
Proof. reflexivity. Qed.

Example normalize_pork_gelatin :
  normalize (lit "  Pork " ++ [0x09; 0x3000]%N ++ lit " Gelatin ") = lit "porkgelatin".
Proof. reflexivity. Qed.

Example classify_pork_gelatin :
  classify_material (CStr (lit "Pork Gelatin")) sample_ruleset =
  Ok (PyStr (lit "HARAM"), PyStr (HARAM_REASON ++ lit "pork")).
Proof. reflexivity. Qed.

Example classify_beef_extract :
  classify_material (CStr (lit "beef extract")) sample_ruleset =
  Ok (PyStr (lit "REVIEW"), PyStr OVERRIDE_REASON).
Proof. reflexivity. Qed.

Example classify_missing_name :
  classify_material CNA sample_ruleset = Ok (PyNone, PyNone).
Proof. reflexivity. Qed.

Example keyword_x :
  keyword_match (lit "x") (PyStr (lit "x")) = true /\
  keyword_match (lit "xy") (PyStr (lit "x")) = false /\
  keyword_match (lit "eggwhite") (PyStr (lit "egg")) = true.
Proof. repeat split. Qed.

Lemma normalize_idempotent_witness :
  normalize (normalize (CStr (lit " Pork  Gelatin "))) =
  normalize (CStr (lit " Pork  Gelatin ")).
Proof.
  apply (normalize_idempotent (CStr (lit " Pork  Gelatin ")) latin_tables_stable).
Defined.

Lemma classify_material_priority_witness :
  exists result : pyval * pyval,
    classify_material (CStr (lit "Pork Gelatin")) sample_ruleset = Ok result /\
    decision (labels_of sample_ruleset) (exact_of sample_ruleset)
      (tier_of sample_ruleset (lit "haram_contains"))
      (tier_of sample_ruleset (lit "review_contains"))
      (tier_of sample_ruleset (lit "halal_contains"))
      (normalize (name_text (CStr (lit "Pork Gelatin")))) result /\
    forall other : pyval * pyval,
      decision (labels_of sample_ruleset) (exact_of sample_ruleset)
        (tier_of sample_ruleset (lit "haram_contains"))
        (tier_of sample_ruleset (lit "review_contains"))
        (tier_of sample_ruleset (lit "halal_contains"))
        (normalize (name_text (CStr (lit "Pork Gelatin")))) other ->
      other = result.
Proof.
  apply (classify_material_priority (CStr (lit "Pork Gelatin"))
           (ruleset := sample_ruleset)).
  reflexivity.
Defined.

Lemma classify_material_both_or_neither_witness :
  exists status reason : pyval,
    classify_material (CStr (lit "beef extract")) sample_ruleset =
    Ok (status, reason) /\
    ((status = PyNone /\ reason = PyNone) \/
     (exists s r, status = PyStr s /\ reason = PyStr r)).
Proof.
  apply (classify_material_both_or_neither (CStr (lit "beef extract"))
           (ruleset := sample_ruleset)).
  reflexivity.
Defined.

(** ** The further properties on concrete inputs *)

Lemma strip_json_comments_after_plain_text_witness :
  exists out : str,
    strip_json_comments (lit "/* two */ 2]") = Ok out /\
    strip_json_comments (lit "[1, " ++ lit "/* two */ 2]") =
    Ok (lit "[1, " ++ out).
Proof.
  apply (@strip_json_comments_after_plain_text (lit "[1, ") (lit "/* two */ 2]"));
    reflexivity.
Defined.

Lemma strip_json_comments_line_comment_witness :
  exists out : str,
    strip_json_comments (LF :: lit " 2]") = Ok out /\
    strip_json_comments
      (lit "[1, " ++ SLASH :: SLASH :: lit " one /* 1" ++ LF :: lit " 2]") =
    Ok (lit "[1, " ++ out).
Proof.
  apply (@strip_json_comments_line_comment (lit "[1, ") (lit " one /* 1")
           (LF :: lit " 2]")); reflexivity.
Defined.

Lemma strip_json_comments_block_comment_witness :
  exists out : str,
    strip_json_comments (lit " 2]") = Ok out /\
    strip_json_comments
      (lit "[1, " ++ SLASH :: STAR :: lit " one // * /" ++
       STAR :: SLASH :: lit " 2]") =
    Ok (lit "[1, " ++ out).
Proof.
  apply (@strip_json_comments_block_comment (lit "[1, ") (lit " one // * /")
           (lit " 2]")); reflexivity.
Defined.

Lemma load_rules_plain_json_witness :
  load_rules json_loads sample_strings_only = json_loads sample_strings_only.
Proof.
  apply (@load_rules_plain_json json_loads sample_strings_only). reflexivity.
Defined.

Lemma normalize_padding_witness :
  normalize (lit "  " ++ lit "Pork Fat" ++ [0x09; 0x3000]%N : str) =
  normalize (lit "Pork Fat").
Proof.
  apply (@normalize_padding latin_tables (lit "  ") (lit "Pork Fat")
           [0x09; 0x3000]%N); reflexivity.
Defined.

Local Open Scope N_scope.

Lemma latin_tables_whitespace : whitespace_is_caseless latin_tables.
Proof.
  intros c W. cbn [tolower_full latin_tables].
  assert (latin_tolower c = [c]) as E.
  { pose proof W as R. unfold isspace in R.
    rewrite !orb_true_iff, !andb_true_iff, !N.leb_le, !N.eqb_eq in R.
    unfold latin_tolower, CAPITAL_SIGMA.
    destruct (N.leb_spec 0x41 c); destruct (N.leb_spec c 0x5A); cbn [andb];
      [exfalso; lia | | | ].
    all: destruct (N.eqb_spec c 0x130); [exfalso; lia|].
    all: destruct (N.eqb_spec c 0x3A3); [exfalso; lia | reflexivity]. }
  rewrite E. cbn [forallb]. rewrite W. reflexivity.
Qed.

Local Open Scope nat_scope.

Lemma normalize_ignores_whitespace_witness :
  normalize (lit "Pork" ++ [0x20; 0x0A]%N ++ lit "Fat" : str) =
  normalize (lit "Pork" ++ lit "Fat" : str).
Proof.
  apply (@normalize_ignores_whitespace latin_tables (lit "Pork") [0x20; 0x0A]%N
           (lit "Fat") latin_tables_whitespace); reflexivity.
Defined.

Lemma keyword_match_blank_keyword_witness :
  keyword_match (lit "pork") (PyStr (lit "  ")) = false.
Proof.
  apply (@keyword_match_blank_keyword latin_tables (lit "pork") (PyStr (lit "  "))).
  reflexivity.
Defined.

Lemma keyword_match_contained_witness :
  keyword_match (lit "fresh" ++ lit "pork" ++ lit "fat") (PyStr (lit " Pork")) =
  true.
Proof.
  apply (@keyword_match_contained latin_tables (lit "fresh") (lit "pork")
           (lit "fat") (PyStr (lit " Pork"))).
  - vm_compute. lia.
  - reflexivity.
Defined.

Lemma keyword_match_itself_witness :
  keyword_match (normalize (PyStr (lit "E"))) (PyStr (lit "E")) = true.
Proof.
  apply (@keyword_match_itself latin_tables (PyStr (lit "E"))). discriminate.
Defined.

Lemma classify_material_padding_witness :
  classify_material (CStr (lit " " ++ lit "Pork Gelatin" ++ lit "  "))
    sample_ruleset =
  classify_material (CStr (lit "Pork Gelatin")) sample_ruleset /\
  classify_material (CStr (lit " ")) sample_ruleset =
  classify_material CNA sample_ruleset.
Proof.
  apply (@classify_material_padding latin_tables (lit " ") (lit "Pork Gelatin")
           (lit "  ") sample_ruleset); reflexivity.
Defined.

Lemma classify_material_empty_name_witness :
  classify_material (CInt 7) sample_ruleset = Ok (PyNone, PyNone).
Proof.
  apply (@classify_material_empty_name latin_tables (CInt 7) sample_ruleset);
    reflexivity.
Defined.

Lemma classify_material_override_decides_witness :
  classify_material (CStr (lit "sea salt")) (PyDict sample_override_only) =
  Ok (PyStr (lit "HALAL"), PyStr OVERRIDE_REASON).
Proof.
  apply (@classify_material_override_decides latin_tables (CStr (lit "sea salt"))
           sample_override_only
           [ (lit "halal", PyStr (lit "HALAL")) ]
           [ (lit "Sea Salt", PyDict [ (lit "status", PyStr (lit "halal")) ]) ]
           [ (lit "status", PyStr (lit "halal")) ]
           PyNone (lit "Sea Salt") (lit "halal")); reflexivity.
Defined.

Lemma classify_material_haram_decides_witness :
  classify_material (CStr (lit "Pork Gelatin")) sample_rules =
  Ok (PyStr (lit "HARAM // forbidden"), PyStr (HARAM_REASON ++ lit "pork")).
Proof.
  apply (@classify_material_haram_decides latin_tables (CStr (lit "Pork Gelatin"))
           _
           [ (lit "halal", PyStr (lit "HALAL"));
             (lit "haram", PyStr (lit "HARAM // forbidden"));
             (lit "review", PyStr (lit "REVIEW")) ]
           [ (lit "haram_contains", PyList [PyStr (lit "pork")]);
             (lit "halal_contains", PyList [PyStr (lit "water")]) ]
           [] [PyStr (lit "pork")] (PyStr (lit "pork"))); reflexivity.
Defined.

Lemma run_keeps_rows_witness :
  true = true /\
  map material_name (final_rows sample_report) = map material_name sample_rows /\
  (forall (i : nat) (r : row),
     nth_error sample_rows i = Some r ->
     should_update (halal_status r) false = false ->
     nth_error (final_rows sample_report) i = Some r) /\
  updated sample_report = count_eligible false sample_rows /\
  written sample_report = negb false.
Proof.
  apply (@run_keeps_rows latin_tables json_loads string_cell_set true sample_rows
           sample_rules_text false false sample_report).
  reflexivity.
Defined.

Lemma run_again_changes_nothing_witness :
  exists rep' : report,
    run json_loads string_cell_set true (final_rows sample_report)
      sample_rules_text false false = Ok rep' /\
    final_rows rep' = final_rows sample_report /\
    updated rep' <= updated sample_report.
Proof.
  apply (@run_again_changes_nothing latin_tables json_loads string_cell_set true
           sample_rows sample_rules_text false false sample_report).
  reflexivity.
Defined.

Lemma run_valid_ruleset_witness :
  run json_loads string_cell_set true sample_rows sample_rules_text false true =
  Ok {| final_rows := map (classified_row sample_rules false) sample_rows;
        updated := count_eligible false sample_rows;
        written := negb true |}.
Proof.
  apply (@run_valid_ruleset latin_tables json_loads string_cell_set sample_rows
           sample_rules_text sample_rules false true).
  - reflexivity.
  - reflexivity.
  - intros s. reflexivity.
Defined.
